(** * Meta-partition health check of the command line tool

    A shallow embedding of [cli/cmd/metapartition.go]: the per-partition
    diagnosis [checkMetaPartition], the [--all] sweep
    [checkAllMetaPartitions] and the default listing of
    [newListCorruptMetaPartitionCmd].

    The master and meta-node clients are modelled as a snapshot of the
    cluster: every remote call is a function of its request.  Text written
    to the terminal is modelled as the list of output calls made. *)

From Stdlib Require Import String Ascii List Bool NArith ZArith Lia.
From Stdlib Require Import Sorted Permutation DecimalString DecimalN.
Import ListNotations.
Open Scope string_scope.

Set Implicit Arguments.

(** ** Go library functions used by the command *)

Module Go.

(** [sort.SliceStable]: a stable sort for a strict "less" test.  Insertion
    from the right keeps equal elements in their original order. *)
Section StableSort.
Variable A : Type.
Variable less : A -> A -> bool.

Fixpoint insert (x : A) (l : list A) : list A :=
  match l with
  | [] => [x]
  | y :: l' => if less y x then y :: insert x l' else x :: y :: l'
  end.

Fixpoint SliceStable (l : list A) : list A :=
  match l with
  | [] => []
  | x :: l' => insert x (SliceStable l')
  end.

(** "not after": the order in which a sorted slice is laid out. *)
Definition notAfter (a b : A) : Prop := less b a = false.

End StableSort.

(** [sort.Strings]: ascending byte-wise lexicographic order. *)
Definition Strings (l : list string) : list string :=
  SliceStable String.ltb l.

(** [strings.Repeat]. *)
Fixpoint Repeat (s : string) (count : nat) : string :=
  match count with
  | O => ""
  | S n => s ++ Repeat s n
  end.

(** [strings.Join]. *)
Definition Join (elems : list string) (sep : string) : string :=
  String.concat sep elems.

(** [strings.Split(s, sep)] for a separator of one byte: the pieces
    between the separators; never empty. *)
Fixpoint Split (s : string) (sep : ascii) : list string :=
  match s with
  | EmptyString => [""]
  | String c s' =>
      if Ascii.eqb c sep then "" :: Split s' sep
      else match Split s' sep with
           | [] => [String c ""]
           | piece :: pieces => String c piece :: pieces
           end
  end.

(** Indexing a slice at 0. [Split] never returns an empty slice, so the
    default is never reached there. *)
Definition first (l : list string) : string := hd "" l.

(** [%v] of an unsigned integer. *)
Definition showN (n : N) : string := NilEmpty.string_of_uint (N.to_uint n).

(** [%v] of [len(...)]. *)
Definition showLen (n : nat) : string := showN (N.of_nat n).

(** The escape byte written [\033] in Go string literals. *)
Definition esc : string := String (ascii_of_nat 27) "".

(** The line feed written [\n]. *)
Definition nl : string := String (ascii_of_nat 10) "".

End Go.

(** ** Data model ([proto] package, the fields the command reads) *)

(** A Go error, kept as the text that [%v] prints for it. *)
Definition error := string.

(** The pair [(value, err)] returned by a client call. *)
Inductive Reply (A : Type) : Type :=
| Ok (a : A)
| Err (err : error).
Arguments Ok {A} a.
Arguments Err {A} err.

Record Peer := { PeerID : N; PeerAddr : string }.

Record MetaReplicaInfo := { Addr : string; IsLeader : bool }.

Record MetaPartitionInfo := {
  PartitionID : N;                    (* uint64 *)
  VolName : string;
  Replicas : list MetaReplicaInfo;
  ReplicaNum : N;                     (* uint8 *)
  Status : Z;                         (* int8 *)
  Hosts : list string;
  MissNodes : list (string * Z)       (* map[string]int64, as its entries *)
}.

Record MNMetaPartitionInfo := { Peers : list Peer }.

Record MetaNodeInfo := { ID : N; NodeAddr : string; IsActive : bool }.

Record MetaPartitionDiagnosis := {
  InactiveMetaNodes : list string;
  CorruptMetaPartitionIDs : list N;
  LackReplicaMetaPartitionIDs : list N
}.

Record VolInfo := { Name : string; Owner : string }.

Record MetaPartitionView := { ViewPartitionID : N }.

Record VolView := { MetaPartitions : list MetaPartitionView }.

(** The master client with its three API groups.  A partition pointer may
    be nil without an error (the command tests for it), hence the option. *)
Record MasterClient := {
  GetMetaPartition : N -> Reply (option MetaPartitionInfo);
  GetVolume : string -> string -> Reply VolView;
  DiagnoseMetaPartition : Reply MetaPartitionDiagnosis;
  ListVols : string -> Reply (list VolInfo);
  GetMetaNode : string -> Reply MetaNodeInfo;
  MetaNodeGetPartition : string -> N -> Reply MNMetaPartitionInfo
}.

(** ** Terminal output *)

(** One output call.  [fmtPrintfFormat] is [fmt.Printf(s)] with the text
    used as the format and no operand. *)
Inductive OutEvent :=
| stdout (text : string)
| fmtPrintf (text : string)
| fmtPrintfFormat (format : string)
| stdoutGreen (text : string).

Definition Output := list OutEvent.

(** How a block of the command ends: it falls through to the next
    statement, executes [return], or dereferences a nil pointer. *)
Inductive Exit := Next | Returned | Panicked.

Definition Cmd : Type := Output * Exit.

Definition andThen (c : Cmd) (k : Cmd) : Cmd :=
  match c with
  | (o, Next) => ((o ++ fst k)%list, snd k)
  | (o, e) => (o, e)
  end.

Notation "c ;; k" := (andThen c k) (at level 61, right associativity).

Definition say (e : OutEvent) : Cmd := ([e], Next).

(** The goroutines of one volume write concurrently: the terminal shows
    some interleaving of their outputs, each kept in its own order. *)
Inductive interleaves (A : Type) : list (list A) -> list A -> Prop :=
| interleaves_done : forall tasks,
    Forall (fun t => t = []) tasks -> interleaves tasks []
| interleaves_step : forall before x t after out,
    interleaves (before ++ t :: after)%list out ->
    interleaves (before ++ (x :: t) :: after)%list (x :: out).

(** ** The membership requests of the repair commands *)

(** The three calls of the admin API that change the membership of a
    partition; each returns its error, nil on success.  They are kept in a
    record of their own, beside the read-only calls of [MasterClient]. *)
Record RepairAPI := {
  DecommissionMetaPartition : N -> string -> option error;
  AddMetaReplica : N -> string -> option error;
  DeleteMetaReplica : N -> string -> option error
}.

(** A request sent to the master. *)
Inductive Request :=
| ReqDecommission (partitionID : N) (address : string)
| ReqAddReplica (partitionID : N) (address : string)
| ReqDeleteReplica (partitionID : N) (address : string).

(** What the [Run] of the get command does with the terminal: nothing, or
    [stdout(formatMetaPartitionInfo(partition))], the text being the
    format, for a record or for a nil pointer. *)
Inductive GetOutcome :=
| Silent
| Shown (partition : option MetaPartitionInfo).

(** ** Helpers of the package that live in other files *)

(** Modelled from the spec: [convertPeersToArray] is defined in another
    file of the package.  A peer view is the list of peer addresses; the
    lack-replica listing builds the same list inline. *)
Definition convertPeersToArray (peers : list Peer) : list string :=
  map PeerAddr peers.

Fixpoint eqStrings (l1 l2 : list string) : bool :=
  match l1, l2 with
  | [], [] => true
  | s1 :: l1', s2 :: l2' => String.eqb s1 s2 && eqStrings l1' l2'
  | _, _ => false
  end.

(** Modelled from the spec: [isEqualStrings] is defined in another file of
    the package.  The sorted peer view is compared against the sorted
    hosts, so that the comparison does not depend on the order. *)
Definition isEqualStrings (strs1 strs2 : list string) : bool :=
  eqStrings (Go.Strings strs1) (Go.Strings strs2).

(** ** A small cluster to run the command on *)

Module Sample.

Definition infoRow (p : MetaPartitionInfo) : string :=
  Go.showN (PartitionID p) ++ " " ++ VolName p.

Definition nodeDetail (n : MetaNodeInfo) (rowTable : bool) : string :=
  Go.showN (ID n) ++ " " ++ NodeAddr n.

Definition nodeHeader : string := "ID ADDRESS".

Definition tableHeader : string := "ID VOLUME POSITION REPLICANUM HOSTS".

Definition authKey (owner : string) : string := owner.

Definition colorRow (a b c d e f : string) : string :=
  Go.Join [a; b; c; d; e; f] " | ".

Definition replicas : list MetaReplicaInfo :=
  [ {| Addr := "h1:17210"; IsLeader := true |};
    {| Addr := "h2:17210"; IsLeader := false |};
    {| Addr := "h3:17210"; IsLeader := false |} ].

(** The record the master holds for every partition: three hosts, listed
    out of order, no missing node, a leader. *)
Definition record (pid : N) : MetaPartitionInfo :=
  {| PartitionID := pid; VolName := "vol1"; Replicas := replicas;
     ReplicaNum := 3; Status := 2;
     Hosts := ["h2:17210"; "h1:17210"; "h3:17210"];
     MissNodes := [] |}.

(** A record that the master itself reports as off: a missing host, no
    leader, two hosts for three replicas. *)
Definition degraded : MetaPartitionInfo :=
  {| PartitionID := 40; VolName := "vol1"; Replicas := replicas;
     ReplicaNum := 3; Status := -1;
     Hosts := ["h2:17210"; "h1:17210"];
     MissNodes := [("h3:17210", 1600000000%Z)] |}.

(** The peers every reachable replica reports, in yet another order. *)
Definition peers : list Peer :=
  [ {| PeerID := 3; PeerAddr := "h3:17210" |};
    {| PeerID := 2; PeerAddr := "h2:17210" |};
    {| PeerID := 1; PeerAddr := "h1:17210" |} ].

Definition mem (s : string) (l : list string) : bool :=
  existsb (String.eqb s) l.

Definition memN (n : N) (l : list N) : bool := existsb (N.eqb n) l.

Definition views : list MetaPartitionView :=
  [ {| ViewPartitionID := 30 |};
    {| ViewPartitionID := 10 |};
    {| ViewPartitionID := 20 |} ].

Definition diagnosis : MetaPartitionDiagnosis :=
  {| InactiveMetaNodes := ["n2:17210"; "n1:17210"];
     CorruptMetaPartitionIDs := [30; 10; 20]%N;
     LackReplicaMetaPartitionIDs := [40; 10; 45]%N |}.

Definition node (id : N) (addr : string) : MetaNodeInfo :=
  {| ID := id; NodeAddr := addr; IsActive := false |}.

(** A cluster with partitions 10, 20 and 30 in one volume, partition 45,
    the degraded partition 40 and two inactive nodes; [down] are the
    unreachable meta nodes and [lost] the partitions the master does not
    find. *)
Definition cluster (down : list string) (lost : list N) : MasterClient :=
  {| GetMetaPartition := fun pid =>
       if memN pid lost then Err "meta partition not exists"
       else if memN pid [10; 20; 30; 45]%N then Ok (Some (record pid))
       else if (pid =? 40)%N then Ok (Some degraded)
       else Err "meta partition not exists";
     GetVolume := fun name _ =>
       if String.eqb name "vol1"
       then Ok {| MetaPartitions := views |}
       else Err "vol not exists";
     DiagnoseMetaPartition := Ok diagnosis;
     ListVols := fun _ => Ok [ {| Name := "vol1"; Owner := "root" |} ];
     GetMetaNode := fun addr =>
       if String.eqb addr "n1:17210" then Ok (node 2 addr)
       else if String.eqb addr "n2:17210" then Ok (node 1 addr)
       else Err "meta node not exists";
     MetaNodeGetPartition := fun addr pid =>
       if mem addr down then Err "connection refused"
       else Ok {| Peers := peers |} |}.

Definition numError (s : string) : error :=
  "strconv.ParseUint: parsing " ++ s ++ ": invalid".

(** A master that refuses every membership change on the node h9. *)
Definition repair : RepairAPI :=
  let refuse := fun (pid : N) (addr : string) =>
    if String.eqb addr "h9:17210" then Some "meta node not exists"
    else None in
  {| DecommissionMetaPartition := refuse;
     AddMetaReplica := refuse;
     DeleteMetaReplica := refuse |}.

(** The record of partition 10 with the hosts and the replicas listed in
    another order. *)
Definition reordered : MetaPartitionInfo :=
  {| PartitionID := 10; VolName := "vol1";
     Replicas := [ {| Addr := "h2:17210"; IsLeader := false |};
                   {| Addr := "h1:17210"; IsLeader := true |};
                   {| Addr := "h3:17210"; IsLeader := false |} ];
     ReplicaNum := 3; Status := 2;
     Hosts := ["h3:17210"; "h2:17210"; "h1:17210"];
     MissNodes := [] |}.

(** A client that answers the fetch of a partition in its own way and is
    the given one otherwise. *)
Definition answering (get : N -> Reply (option MetaPartitionInfo))
    (c : MasterClient) : MasterClient :=
  {| GetMetaPartition := get;
     GetVolume := GetVolume c;
     DiagnoseMetaPartition := DiagnoseMetaPartition c;
     ListVols := ListVols c;
     GetMetaNode := GetMetaNode c;
     MetaNodeGetPartition := MetaNodeGetPartition c |}.

(** A client whose master cannot list the volumes. *)
Definition unlisted (c : MasterClient) : MasterClient :=
  {| GetMetaPartition := GetMetaPartition c;
     GetVolume := GetVolume c;
     DiagnoseMetaPartition := DiagnoseMetaPartition c;
     ListVols := fun _ => Err "no leader";
     GetMetaNode := GetMetaNode c;
     MetaNodeGetPartition := MetaNodeGetPartition c |}.

(** A client whose meta nodes answer the query for a partition in their
    own way and that is the given one otherwise. *)
Definition reporting
    (peersOf : string -> N -> Reply MNMetaPartitionInfo)
    (c : MasterClient) : MasterClient :=
  {| GetMetaPartition := GetMetaPartition c;
     GetVolume := GetVolume c;
     DiagnoseMetaPartition := DiagnoseMetaPartition c;
     ListVols := ListVols c;
     GetMetaNode := GetMetaNode c;
     MetaNodeGetPartition := peersOf |}.

(** The cluster in which the replica on h2 has lost h3 from its own view
    of the peers, while the master's records are in order. *)
Definition forgetful : MasterClient :=
  reporting
    (fun addr _ =>
       if String.eqb addr "h2"
       then Ok {| Peers := [ {| PeerID := 1; PeerAddr := "h1:17210" |};
                             {| PeerID := 2; PeerAddr := "h2:17210" |} ] |}
       else Ok {| Peers := peers |})
    (cluster [] []).

(** A master on which both inactive addresses answer with the node ID 5. *)
Definition renumbered : MasterClient :=
  {| GetMetaPartition := GetMetaPartition (cluster [] []);
     GetVolume := GetVolume (cluster [] []);
     DiagnoseMetaPartition := Ok diagnosis;
     ListVols := ListVols (cluster [] []);
     GetMetaNode := fun addr => Ok (node 5 addr);
     MetaNodeGetPartition := MetaNodeGetPartition (cluster [] []) |}.

End Sample.

(** ** The command *)

Section Command.

(** Formatting helpers and constants of the package that are defined in
    other files; the model is parametric in them. *)
Variable formatMetaPartitionInfoRow : MetaPartitionInfo -> string.
Variable formatMetaNodeDetail : MetaNodeInfo -> bool -> string.
Variable formatMetaNodeDetailTableHeader : string.
Variable partitionInfoTableHeader : string.
Variable calcAuthKey : string -> string.

(** [fmt.Sprintf(partitionInfoColorTablePattern, a, b, c, d, e, f)]. *)
Variable partitionInfoColorTablePattern :
  string -> string -> string -> string -> string -> string -> string.

Definition unhealthyMsg : string :=
  "The partition is unhealthy according to the report message from master".

(** The red line of line 229. *)
Definition unhealthyLine : string :=
  Go.esc ++ "[1;40;31m" ++ unhealthyMsg ++ Go.esc ++ "[0m" ++ Go.nl.

(** The test of lines 227-231 on the record reported by the master;
    [hosts] is [partition.Hosts] after [sort.Strings]. *)
Definition masterReportsUnhealthy (partition : MetaPartitionInfo)
    (hosts : list string) : bool :=
  (0 <? length (MissNodes partition))%nat
  || (Status partition =? -1)%Z
  || negb (N.of_nat (length hosts) =? ReplicaNum partition)%N.

(** The row written for a replica whose query failed (lines 237-238). *)
Definition failedRow (partition : MetaPartitionInfo)
    (r : MetaReplicaInfo) (err : error) : string :=
  partitionInfoColorTablePattern "" "" ""
    (Addr r)
    ("nil" ++ "/" ++ Go.showN (ReplicaNum partition))
    ("get partition info failed, err:" ++ err) ++ Go.nl.

(** The row written for a replica that answered (lines 245-246). *)
Definition peersRow (partition : MetaPartitionInfo)
    (r : MetaReplicaInfo) (peerStrings : list string) : string :=
  partitionInfoColorTablePattern "" "" ""
    (Addr r ++ "(peers)")
    (Go.showLen (length peerStrings) ++ "/"
       ++ Go.showN (ReplicaNum partition))
    (Go.Join peerStrings "; ") ++ Go.nl.

(** One iteration of the loop over [partition.Replicas] (lines 232-253),
    on the string builder and the health flag. *)
Definition checkReplica (client : MasterClient)
    (partition : MetaPartitionInfo) (hosts : list string)
    (r : MetaReplicaInfo) (st : string * bool) : string * bool :=
  let '(sb, isHealthy) := st in
  let addr := Go.first (Go.Split (Addr r) ":") in
  match MetaNodeGetPartition client addr (PartitionID partition) with
  | Err err =>
      let sb := sb ++ failedRow partition r err in
      (sb, false)
  | Ok mnPartition =>
      let peerStrings :=
        Go.Strings (convertPeersToArray (Peers mnPartition)) in
      let sb := sb ++ peersRow partition r peerStrings in
      let isHealthy :=
        if negb (isEqualStrings hosts peerStrings) then false
        else isHealthy in
      let isHealthy :=
        if negb (N.of_nat (length peerStrings) =? ReplicaNum partition)%N
        then false else isHealthy in
      (sb, isHealthy)
  end.

Fixpoint checkReplicas (client : MasterClient)
    (partition : MetaPartitionInfo) (hosts : list string)
    (replicas : list MetaReplicaInfo) (st : string * bool)
    : string * bool :=
  match replicas with
  | [] => st
  | r :: rest =>
      checkReplicas client partition hosts rest
        (checkReplica client partition hosts r st)
  end.

(** [checkMetaPartition] (lines 216-257): the named results
    [(outPut, isHealthy, err)]. *)
Definition checkMetaPartition (pid : N) (client : MasterClient)
    : string * bool * option error :=
  let sb := "" in
  let isHealthy := true in
  match GetMetaPartition client pid with
  | Err err =>
      (* the message goes to the builder, and the function returns before
         [outPut = sb.String()] *)
      let sb := sb ++ "Partition is not found, err:[" ++ err ++ "]" in
      ("", isHealthy, Some err)
  | Ok None => (sb, isHealthy, None)
  | Ok (Some partition) =>
      let sb := sb ++ formatMetaPartitionInfoRow partition ++ Go.nl in
      let hosts := Go.Strings (Hosts partition) in
      let '(sb, isHealthy) :=
        if masterReportsUnhealthy partition hosts
        then (sb ++ unhealthyLine, false)
        else (sb, isHealthy) in
      let '(sb, isHealthy) :=
        checkReplicas client partition hosts (Replicas partition)
          (sb, isHealthy) in
      (sb, isHealthy, None)
  end.

Definition reportOf (r : string * bool * option error) : string :=
  fst (fst r).
Definition verdictOf (r : string * bool * option error) : bool :=
  snd (fst r).
Definition errOf (r : string * bool * option error) : option error :=
  snd r.

(** *** The [--all] sweep *)

Definition sweepSeparator : string :=
  Go.Repeat "_ " (String.length partitionInfoTableHeader / 2 + 20) ++ Go.nl.

(** The body of the goroutine started for one partition (lines 200-210):
    what it writes. *)
Definition checkTask (client : MasterClient) (mp : MetaPartitionView)
    : Output :=
  let '(outPut, isHealthy, _) :=
    checkMetaPartition (ViewPartitionID mp) client in
  if negb isHealthy
  then [fmtPrintfFormat outPut; stdoutGreen sweepSeparator]
  else [].

Definition sortViews (mps : list MetaPartitionView)
    : list MetaPartitionView :=
  Go.SliceStable (fun a b => (ViewPartitionID a <? ViewPartitionID b)%N) mps.

(** The loop over the volumes (lines 188-213): [err] is the named result,
    overwritten by every [GetVolume]. *)
Fixpoint sweepVolumes (client : MasterClient) (volInfo : list VolInfo)
    (err : option error) (out : Output) (err' : option error) : Prop :=
  match volInfo with
  | [] => out = [] /\ err' = err
  | vol :: rest =>
      match GetVolume client (Name vol) (calcAuthKey (Owner vol)) with
      | Err e =>
          exists out',
            out = stdout ("Found an invalid vol: " ++ Name vol ++ Go.nl)
                    :: out'
            /\ sweepVolumes client rest (Some e) out' err'
      | Ok volView =>
          exists o1 o2,
            out = (o1 ++ o2)%list
            /\ interleaves
                 (map (checkTask client) (sortViews (MetaPartitions volView)))
                 o1
            /\ sweepVolumes client rest None o2 err'
      end
  end.

(** [checkAllMetaPartitions] (lines 179-215): the outputs and results it
    can produce. *)
Definition checkAllMetaPartitions (client : MasterClient)
    (out : Output) (err : option error) : Prop :=
  match ListVols client "" with
  | Err e => out = [stdout (e ++ Go.nl)] /\ err = Some e
  | Ok volInfo =>
      exists o,
        out = ([stdout Go.nl;
                stdout ("[Partition peer info not valid]:" ++ Go.nl);
                stdout (partitionInfoTableHeader ++ Go.nl)] ++ o)%list
        /\ sweepVolumes client volInfo None o err
  end.

(** *** The default listing *)

(** The loop of lines 111-115: the error of [GetMetaNode] is dropped and
    the node pointer, nil after an error, is appended. *)
Definition fetchMetaNodes (client : MasterClient) (addrs : list string)
    : list (option MetaNodeInfo) :=
  map (fun addr =>
         match GetMetaNode client addr with
         | Ok node => Some node
         | Err _ => None
         end) addrs.

Fixpoint derefAll (A : Type) (ptrs : list (option A)) : option (list A) :=
  match ptrs with
  | [] => Some []
  | None :: _ => None
  | Some a :: rest =>
      match derefAll rest with
      | Some l => Some (a :: l)
      | None => None
      end
  end.

Definition sortNodes (nodes : list MetaNodeInfo) : list MetaNodeInfo :=
  Go.SliceStable (fun a b => (ID a <? ID b)%N) nodes.

Definition sortIDs (ids : list N) : list N := Go.SliceStable N.ltb ids.

(** The slice [metaNodes] after line 118, in the order in which the
    rows are printed; [None] when a nil node is dereferenced. *)
Definition sortedMetaNodes (client : MasterClient) (addrs : list string)
    : option (list MetaNodeInfo) :=
  match derefAll (fetchMetaNodes client (Go.Strings addrs)) with
  | Some nodes => Some (sortNodes nodes)
  | None => None
  end.

Definition nodeRow (node : MetaNodeInfo) : OutEvent :=
  stdout (formatMetaNodeDetail node true ++ Go.nl).

(** Lines 108-121. *)
Definition listInactiveNodes (client : MasterClient) (addrs : list string)
    : Cmd :=
  match sortedMetaNodes client addrs with
  | Some metaNodes => (map nodeRow metaNodes, Next)
  | None => ([], Panicked)
  end.

Definition partitionRow (partition : MetaPartitionInfo) : OutEvent :=
  stdout (formatMetaPartitionInfoRow partition ++ Go.nl).

Definition notFound (err : error) : OutEvent :=
  stdout ("Partition not found, err:[" ++ err ++ "]").

(** The loop of lines 129-136 over the sorted corrupt IDs.  The row
    formatter reads the fields of the record: a nil record panics. *)
Fixpoint listCorrupt (client : MasterClient) (pids : list N) : Cmd :=
  match pids with
  | [] => ([], Next)
  | pid :: rest =>
      match GetMetaPartition client pid with
      | Err err => ([notFound err], Returned)
      | Ok None => ([], Panicked)
      | Ok (Some partition) =>
          say (partitionRow partition) ;; listCorrupt client rest
      end
  end.

(** One iteration of the loop of lines 153-169. *)
Definition listReplica (client : MasterClient)
    (partition : MetaPartitionInfo) (r : MetaReplicaInfo) : OutEvent :=
  let addr := Go.first (Go.Split (Addr r) ":") in
  match MetaNodeGetPartition client addr (PartitionID partition) with
  | Err _ =>
      fmtPrintf (partitionInfoColorTablePattern "" "" "" (Addr r)
                   (Go.showN 0 ++ "/" ++ Go.showN (ReplicaNum partition))
                   "no data" ++ Go.nl)
  | Ok mnPartition =>
      let mnHosts := Go.Strings (map PeerAddr (Peers mnPartition)) in
      fmtPrintf (partitionInfoColorTablePattern "" "" "" (Addr r)
                   (Go.showLen (length (Peers mnPartition)) ++ "/"
                      ++ Go.showN (ReplicaNum partition))
                   (Go.Join mnHosts "; ") ++ Go.nl)
  end.

Definition lackSeparator : OutEvent :=
  let width := String.length partitionInfoTableHeader / 2 + 5 in
  fmtPrintf (Go.esc ++ "[1;40;32m" ++ (Go.Repeat "_ " width ++ Go.nl)
               ++ Go.esc ++ "[0m").

(** What lines 150-171 print for one partition that lacks replicas.  The
    hosts are sorted in place at line 152 and not read afterwards. *)
Definition lackBlock (client : MasterClient)
    (partition : MetaPartitionInfo) : Output :=
  (partitionRow partition
     :: map (listReplica client partition) (Replicas partition)
     ++ [lackSeparator])%list.

(** The loop of lines 144-172 over the sorted lack-replica IDs. *)
Fixpoint listLackReplicas (client : MasterClient) (pids : list N) : Cmd :=
  match pids with
  | [] => ([], Next)
  | pid :: rest =>
      match GetMetaPartition client pid with
      | Err err => ([notFound err], Returned)
      | Ok None => listLackReplicas client rest
      | Ok (Some partition) =>
          (lackBlock client partition, Next) ;; listLackReplicas client rest
      end
  end.

(** Lines 106-173, once the diagnosis is there. *)
Definition listDiagnosis (client : MasterClient)
    (diagnosis : MetaPartitionDiagnosis) : Cmd :=
  say (stdout ("[Inactive Meta nodes]:" ++ Go.nl)) ;;
  say (stdout (formatMetaNodeDetailTableHeader ++ Go.nl)) ;;
  listInactiveNodes client (InactiveMetaNodes diagnosis) ;;
  say (stdout Go.nl) ;;
  say (stdout ("[Corrupt meta partitions](no leader):" ++ Go.nl)) ;;
  say (stdout (partitionInfoTableHeader ++ Go.nl)) ;;
  listCorrupt client (sortIDs (CorruptMetaPartitionIDs diagnosis)) ;;
  say (stdout Go.nl) ;;
  say (stdout ("[Partition lack replicas]:" ++ Go.nl)) ;;
  say (stdout (partitionInfoTableHeader ++ Go.nl)) ;;
  listLackReplicas client (sortIDs (LackReplicaMetaPartitionIDs diagnosis)) ;;
  ([], Returned).

(** The default mode of the command (lines 103-174).  A failed diagnosis
    is printed and not returned from: the nil diagnosis is dereferenced
    at the first sort. *)
Definition defaultCheck (client : MasterClient) : Cmd :=
  match DiagnoseMetaPartition client with
  | Err err =>
      say (stdout (err ++ Go.nl)) ;;
      say (stdout ("[Inactive Meta nodes]:" ++ Go.nl)) ;;
      say (stdout (formatMetaNodeDetailTableHeader ++ Go.nl)) ;;
      ([], Panicked)
  | Ok diagnosis => listDiagnosis client diagnosis
  end.

(** The [Run] function of the check command (lines 90-174). *)
Definition Run (client : MasterClient) (optCheckAll : bool)
    (out : Output) (exit : Exit) : Prop :=
  if optCheckAll
  then exists o err,
         checkAllMetaPartitions client o err
         /\ out = (o ++ match err with
                        | Some e => [stdout (e ++ Go.nl)]
                        | None => []
                        end)%list
         /\ exit = Returned
  else defaultCheck client = (out, exit).

(** *** Specification-side predicates *)

(** A replica agrees with the master: its query succeeds, its sorted peer
    view compares equal to the sorted hosts and has [ReplicaNum]
    entries. *)
Definition replicaAgrees (client : MasterClient)
    (partition : MetaPartitionInfo) (hosts : list string)
    (r : MetaReplicaInfo) : bool :=
  match MetaNodeGetPartition client (Go.first (Go.Split (Addr r) ":"))
          (PartitionID partition) with
  | Err _ => false
  | Ok mnPartition =>
      let peerStrings :=
        Go.Strings (convertPeersToArray (Peers mnPartition)) in
      isEqualStrings hosts peerStrings
      && (N.of_nat (length peerStrings) =? ReplicaNum partition)%N
  end.

(** The row that the check of one replica adds to the report. *)
Definition replicaRow (client : MasterClient)
    (partition : MetaPartitionInfo) (r : MetaReplicaInfo) : string :=
  match MetaNodeGetPartition client (Go.first (Go.Split (Addr r) ":"))
          (PartitionID partition) with
  | Err err => failedRow partition r err
  | Ok mnPartition =>
      peersRow partition r
        (Go.Strings (convertPeersToArray (Peers mnPartition)))
  end.

(** A sequence taken from a longer one without changing the order. *)
Inductive subseq (A : Type) : list A -> list A -> Prop :=
| subseq_nil : forall l, subseq [] l
| subseq_take : forall x s l, subseq s l -> subseq (x :: s) (x :: l)
| subseq_skip : forall x s l, subseq s l -> subseq s (x :: l).

(** The master finds a record for each of the IDs. *)
Definition found (client : MasterClient) (pids : list N)
    (records : list MetaPartitionInfo) : Prop :=
  Forall2 (fun pid partition =>
             GetMetaPartition client pid = Ok (Some partition))
    pids records.

(** The master answers for each of the IDs, with a record or with nil. *)
Definition answered (client : MasterClient) (pids : list N)
    (ptrs : list (option MetaPartitionInfo)) : Prop :=
  Forall2 (fun pid ptr => GetMetaPartition client pid = Ok ptr) pids ptrs.

Definition lackBlocks (client : MasterClient)
    (ptrs : list (option MetaPartitionInfo)) : Output :=
  flat_map (fun ptr => match ptr with
                       | Some partition => lackBlock client partition
                       | None => []
                       end) ptrs.

Definition byID (a b : MetaNodeInfo) : Prop := (ID a <= ID b)%N.

Definition inactiveHeader : Output :=
  [stdout ("[Inactive Meta nodes]:" ++ Go.nl);
   stdout (formatMetaNodeDetailTableHeader ++ Go.nl)].

Definition corruptHeader : Output :=
  [stdout Go.nl;
   stdout ("[Corrupt meta partitions](no leader):" ++ Go.nl);
   stdout (partitionInfoTableHeader ++ Go.nl)].

Definition lackHeader : Output :=
  [stdout Go.nl;
   stdout ("[Partition lack replicas]:" ++ Go.nl);
   stdout (partitionInfoTableHeader ++ Go.nl)].

(** A partition that the sweep diagnoses: it belongs to a volume of the
    list whose view the master returns. *)
Definition diagnosed (client : MasterClient) (volInfo : list VolInfo)
    (mp : MetaPartitionView) : Prop :=
  exists vol volView,
    In vol volInfo
    /\ GetVolume client (Name vol) (calcAuthKey (Owner vol)) = Ok volView
    /\ In mp (MetaPartitions volView).

(** Two lists hold the same addresses. *)
Definition sameSet (l1 l2 : list string) : Prop :=
  forall x, In x l1 <-> In x l2.

(** [a] is written before [b] in [out]. *)
Definition writtenBefore (a b : OutEvent) (out : Output) : Prop :=
  exists o1 o2 o3, out = (o1 ++ a :: o2 ++ b :: o3)%list.

(** *** The get command and the repair commands *)

(** The text of the error that [strconv.ParseUint] returns for an input. *)
Variable strconvError : string -> error.

Definition maxUint64 : N := 18446744073709551615.

(** [strconv.ParseUint(s, 10, 64)]: a non-empty string of decimal digits
    whose value fits 64 bits; no sign, no underscore. *)
Definition ParseUint (s : string) : Reply N :=
  match s with
  | EmptyString => Err (strconvError s)
  | String _ _ =>
      match NilEmpty.uint_of_string s with
      | None => Err (strconvError s)
      | Some d =>
          if (N.of_uint d <=? maxUint64)%N then Ok (N.of_uint d)
          else Err (strconvError s)
      end
  end.

(** [cobra.MinimumNArgs(n)]: with fewer arguments the command is rejected
    and [Run] is not called. *)
Definition MinimumNArgs (X : Type) (n : nat) (run : list string -> X)
    (args : list string) : option X :=
  if (length args <? n)%nat then None else Some (run args).

(** [args[i]], for an index that [MinimumNArgs] has checked. *)
Definition arg (i : nat) (args : list string) : string := nth i args "".

(** The [Run] of [newMetaPartitionGetCmd] (lines 62-74). *)
Definition getRun (client : MasterClient) (args : list string)
    : GetOutcome :=
  match ParseUint (arg 0 args) with
  | Err _ => Silent
  | Ok partitionID =>
      match GetMetaPartition client partitionID with
      | Err _ => Silent
      | Ok partition => Shown partition
      end
  end.

Definition metaPartitionGetCmd (client : MasterClient)
    : list string -> option GetOutcome :=
  MinimumNArgs 1 (getRun client).

(** The common shape of the three repair commands: the requests sent and
    what is printed. *)
Definition repairRun (call : N -> string -> option error)
    (request : N -> string -> Request) (args : list string)
    : list Request * Output :=
  let address := arg 0 args in
  match ParseUint (arg 1 args) with
  | Err err => ([], [stdout (err ++ Go.nl)])
  | Ok partitionID =>
      match call partitionID address with
      | Some err => ([request partitionID address], [stdout (err ++ Go.nl)])
      | None => ([request partitionID address], [])
      end
  end.

(** [newMetaPartitionDecommissionCmd] (lines 258-283). *)
Definition metaPartitionDecommissionCmd (api : RepairAPI)
    : list string -> option (list Request * Output) :=
  MinimumNArgs 2 (repairRun (DecommissionMetaPartition api) ReqDecommission).

(** [newMetaPartitionReplicateCmd] (lines 285-310). *)
Definition metaPartitionReplicateCmd (api : RepairAPI)
    : list string -> option (list Request * Output) :=
  MinimumNArgs 2 (repairRun (AddMetaReplica api) ReqAddReplica).

(** [newMetaPartitionDeleteReplicaCmd] (lines 312-337). *)
Definition metaPartitionDeleteReplicaCmd (api : RepairAPI)
    : list string -> option (list Request * Output) :=
  MinimumNArgs 2 (repairRun (DeleteMetaReplica api) ReqDeleteReplica).

(** *** The sweep, one goroutine after the other *)

Definition sweepHeader : Output :=
  [stdout Go.nl;
   stdout ("[Partition peer info not valid]:" ++ Go.nl);
   stdout (partitionInfoTableHeader ++ Go.nl)].

(** Everything written for one volume, in the order of the partition
    IDs. *)
Definition volumeWrites (client : MasterClient) (vol : VolInfo) : Output :=
  match GetVolume client (Name vol) (calcAuthKey (Owner vol)) with
  | Err _ => [stdout ("Found an invalid vol: " ++ Name vol ++ Go.nl)]
  | Ok volView =>
      concat (map (checkTask client) (sortViews (MetaPartitions volView)))
  end.

(** The error of [GetVolume] for a volume, nil when the view is there. *)
Definition volumeError (client : MasterClient) (vol : VolInfo)
    : option error :=
  match GetVolume client (Name vol) (calcAuthKey (Owner vol)) with
  | Err e => Some e
  | Ok _ => None
  end.

(** The text of a string has no colon. *)
Definition noColon (s : string) : Prop :=
  ~ In ":"%char (list_ascii_of_string s).

(** The order of [sort.Strings] on two neighbours. *)
Definition ascending (a b : string) : Prop := String.leb a b = true.

Definition hasID (k : N) (node : MetaNodeInfo) : bool := (ID node =? k)%N.

(** The master returns a node for each of the addresses. *)
Definition fetchedNodes (client : MasterClient) (addrs : list string)
    (nodes : list MetaNodeInfo) : Prop :=
  Forall2 (fun addr node => GetMetaNode client addr = Ok node) addrs nodes.

(** What is written for one volume when the goroutines of its partitions
    write one after the other in the given order. *)
Definition volumeWritesIn (client : MasterClient) (vol : VolInfo)
    (order : list MetaPartitionView) : Output :=
  match GetVolume client (Name vol) (calcAuthKey (Owner vol)) with
  | Err _ => [stdout ("Found an invalid vol: " ++ Name vol ++ Go.nl)]
  | Ok _ => concat (map (checkTask client) order)
  end.

(** For each volume whose view the master returns, an arrangement of its
    partitions. *)
Definition arrangements (client : MasterClient) (volInfo : list VolInfo)
    (orders : list (list MetaPartitionView)) : Prop :=
  Forall2 (fun vol order =>
             forall volView,
               GetVolume client (Name vol) (calcAuthKey (Owner vol))
               = Ok volView ->
               Permutation order (MetaPartitions volView))
    volInfo orders.

(** ** Facts about the stable sort *)

Section SortFacts.
Variable A : Type.
Variable less : A -> A -> bool.

Lemma insert_perm (x : A) (l : list A) :
  Permutation (Go.insert less x l) (x :: l).
Proof.
  induction l as [|y l IH]; simpl.
  - apply Permutation_refl.
  - destruct (less y x).
    + apply perm_trans with (y :: x :: l).
      * apply perm_skip, IH.
      * apply perm_swap.
    + apply Permutation_refl.
Qed.

Lemma SliceStable_perm (l : list A) :
  Permutation (Go.SliceStable less l) l.
Proof.
  induction l as [|x l IH]; simpl.
  - apply perm_nil.
  - eapply perm_trans; [apply insert_perm|].
    apply perm_skip, IH.
Qed.

Lemma SliceStable_length (l : list A) :
  length (Go.SliceStable less l) = length l.
Proof. apply Permutation_length, SliceStable_perm. Qed.

Lemma SliceStable_In (l : list A) (x : A) :
  In x (Go.SliceStable less l) <-> In x l.
Proof.
  split; apply Permutation_in;
    [|apply Permutation_sym]; apply SliceStable_perm.
Qed.

(** A slice that is in order already is left as it is. *)
Lemma SliceStable_sorted_id (l : list A) :
  Sorted (Go.notAfter less) l -> Go.SliceStable less l = l.
Proof.
  induction 1 as [|x l Hs IH Hhd]; simpl; [reflexivity|].
  rewrite IH. destruct Hhd as [|y l' Hxy]; simpl; [reflexivity|].
  unfold Go.notAfter in Hxy. rewrite Hxy. reflexivity.
Qed.

Hypothesis less_asym : forall a b, less a b = true -> less b a = false.

Lemma insert_sorted (x : A) (l : list A) :
  Sorted (Go.notAfter less) l ->
  Sorted (Go.notAfter less) (Go.insert less x l).
Proof.
  induction 1 as [|y l Hs IH Hhd]; simpl.
  - repeat constructor.
  - destruct (less y x) eqn:Hyx.
    + constructor; [exact IH|].
      destruct Hhd as [|z l' Hyz]; simpl.
      * constructor. apply less_asym, Hyx.
      * destruct (less z x); constructor;
          [exact Hyz | apply less_asym, Hyx].
    + repeat constructor; assumption.
Qed.

Lemma SliceStable_sorted (l : list A) :
  Sorted (Go.notAfter less) (Go.SliceStable less l).
Proof.
  induction l as [|x l IH]; simpl.
  - constructor.
  - apply insert_sorted, IH.
Qed.

Lemma SliceStable_idem (l : list A) :
  Go.SliceStable less (Go.SliceStable less l) = Go.SliceStable less l.
Proof. apply SliceStable_sorted_id, SliceStable_sorted. Qed.

Hypothesis less_trans :
  forall a b c, less a b = true -> less b c = true -> less a c = true.
Hypothesis less_total :
  forall a b, less a b = false -> less b a = false -> a = b.

Lemma insert_comm (x y : A) (l : list A) :
  Go.insert less x (Go.insert less y l)
  = Go.insert less y (Go.insert less x l).
Proof.
  induction l as [|z l IH]; simpl.
  - destruct (less y x) eqn:Hyx, (less x y) eqn:Hxy; simpl;
      try reflexivity.
    + rewrite (less_asym Hyx) in Hxy. discriminate.
    + rewrite (less_total Hxy Hyx). reflexivity.
  - destruct (less z y) eqn:Hzy, (less z x) eqn:Hzx; simpl;
      rewrite ?Hzy, ?Hzx.
    + rewrite IH. reflexivity.
    + destruct (less x y) eqn:Hxy; simpl; rewrite ?Hzy; [reflexivity|].
      destruct (less y x) eqn:Hyx.
      * rewrite (less_trans Hzy Hyx) in Hzx. discriminate.
      * rewrite (less_total Hxy Hyx) in Hzx. congruence.
    + destruct (less y x) eqn:Hyx; simpl; rewrite ?Hzx; [reflexivity|].
      destruct (less x y) eqn:Hxy.
      * rewrite (less_trans Hzx Hxy) in Hzy. discriminate.
      * rewrite (less_total Hxy Hyx) in Hzx. congruence.
    + destruct (less y x) eqn:Hyx, (less x y) eqn:Hxy; simpl;
        rewrite ?Hzy, ?Hzx; try reflexivity.
      * rewrite (less_asym Hyx) in Hxy. discriminate.
      * rewrite (less_total Hxy Hyx). reflexivity.
Qed.

(** For a strict total order the result depends on the elements only,
    not on the order in which they come. *)
Lemma SliceStable_unique (l l' : list A) :
  Permutation l l' -> Go.SliceStable less l = Go.SliceStable less l'.
Proof.
  induction 1 as [|x l l' _ IH|x y l|l l' l'' _ IH1 _ IH2]; simpl.
  - reflexivity.
  - rewrite IH. reflexivity.
  - apply insert_comm.
  - congruence.
Qed.

End SortFacts.

(** ** The order of [sort.Strings] and of the partition IDs *)

Lemma string_ltb_asym (a b : string) :
  String.ltb a b = true -> String.ltb b a = false.
Proof.
  unfold String.ltb. rewrite (String.compare_antisym b a).
  destruct (String.compare a b); simpl; congruence.
Qed.

Lemma string_ltb_total (a b : string) :
  String.ltb a b = false -> String.ltb b a = false -> a = b.
Proof.
  unfold String.ltb. rewrite (String.compare_antisym b a).
  destruct (String.compare a b) eqn:Hc; simpl; try congruence.
  intros _ _. apply String.compare_eq_iff, Hc.
Qed.

Lemma string_compare_lt_trans (a b c : string) :
  String.compare a b = Lt -> String.compare b c = Lt ->
  String.compare a c = Lt.
Proof.
  revert b c. induction a as [|x a IH]; intros [|y b] [|z c]; simpl;
    try congruence.
  unfold Ascii.compare.
  destruct (N.compare_spec (N_of_ascii x) (N_of_ascii y)) as [Hxy|Hxy|Hxy];
    destruct (N.compare_spec (N_of_ascii y) (N_of_ascii z)) as [Hyz|Hyz|Hyz];
    try congruence; intros Hab Hbc.
  - rewrite Hxy, Hyz, N.compare_refl. eapply IH; eassumption.
  - rewrite Hxy. apply N.compare_lt_iff in Hyz. rewrite Hyz. reflexivity.
  - rewrite <- Hyz. apply N.compare_lt_iff in Hxy. rewrite Hxy. reflexivity.
  - assert (H : (N_of_ascii x < N_of_ascii z)%N) by lia.
    apply N.compare_lt_iff in H. rewrite H. reflexivity.
Qed.

Lemma string_ltb_trans (a b c : string) :
  String.ltb a b = true -> String.ltb b c = true -> String.ltb a c = true.
Proof.
  unfold String.ltb. intros Hab Hbc.
  rewrite (@string_compare_lt_trans a b c); [reflexivity| |].
  - destruct (String.compare a b); congruence.
  - destruct (String.compare b c); congruence.
Qed.

Lemma Strings_unique (l l' : list string) :
  Permutation l l' -> Go.Strings l = Go.Strings l'.
Proof.
  apply SliceStable_unique.
  - exact string_ltb_asym.
  - exact string_ltb_trans.
  - exact string_ltb_total.
Qed.

Lemma Strings_perm (l : list string) : Permutation (Go.Strings l) l.
Proof. apply SliceStable_perm. Qed.

Lemma Strings_idem (l : list string) :
  Go.Strings (Go.Strings l) = Go.Strings l.
Proof. apply SliceStable_idem, string_ltb_asym. Qed.

Lemma N_ltb_asym (a b : N) : (a <? b)%N = true -> (b <? a)%N = false.
Proof. rewrite N.ltb_lt, N.ltb_ge. lia. Qed.

Lemma N_ltb_trans (a b c : N) :
  (a <? b)%N = true -> (b <? c)%N = true -> (a <? c)%N = true.
Proof. rewrite !N.ltb_lt. lia. Qed.

Lemma N_ltb_total (a b : N) :
  (a <? b)%N = false -> (b <? a)%N = false -> a = b.
Proof. rewrite !N.ltb_ge. lia. Qed.

Lemma sortIDs_unique (l l' : list N) :
  Permutation l l' -> sortIDs l = sortIDs l'.
Proof.
  apply SliceStable_unique.
  - exact N_ltb_asym.
  - exact N_ltb_trans.
  - exact N_ltb_total.
Qed.

Lemma sortIDs_sorted (l : list N) : Sorted N.le (sortIDs l).
Proof.
  assert (H : Sorted (Go.notAfter N.ltb) (sortIDs l))
    by apply SliceStable_sorted, N_ltb_asym.
  induction H as [|x s Hs IH Hhd]; constructor; [exact IH|].
  destruct Hhd as [|y s' Hxy]; constructor.
  unfold Go.notAfter in Hxy. apply N.ltb_ge, Hxy.
Qed.

(** ** The comparison of the peer view with the hosts *)

Lemma eqStrings_eq (l1 l2 : list string) :
  eqStrings l1 l2 = true <-> l1 = l2.
Proof.
  revert l2. induction l1 as [|s1 l1 IH]; intros [|s2 l2]; simpl;
    try (split; congruence).
  rewrite andb_true_iff, String.eqb_eq, IH. split.
  - intros [-> ->]. reflexivity.
  - intros H. injection H as -> ->. split; reflexivity.
Qed.

Lemma isEqualStrings_perm (l1 l2 : list string) :
  isEqualStrings l1 l2 = true <-> Permutation l1 l2.
Proof.
  unfold isEqualStrings. rewrite eqStrings_eq. split.
  - intros H. apply perm_trans with (Go.Strings l1).
    + apply Permutation_sym, Strings_perm.
    + rewrite H. apply Strings_perm.
  - apply Strings_unique.
Qed.

Lemma isEqualStrings_sorted (hosts peers : list string) :
  isEqualStrings (Go.Strings hosts) (Go.Strings peers) = true
  <-> Permutation hosts peers.
Proof.
  rewrite isEqualStrings_perm. split; intros H.
  - apply perm_trans with (Go.Strings hosts);
      [apply Permutation_sym, Strings_perm|].
    apply perm_trans with (Go.Strings peers); [exact H|].
    apply Strings_perm.
  - apply perm_trans with hosts; [apply Strings_perm|].
    apply perm_trans with peers; [exact H|].
    apply Permutation_sym, Strings_perm.
Qed.

Lemma sameSet_perm (l1 l2 : list string) :
  Permutation l1 l2 -> sameSet l1 l2.
Proof.
  intros H x. split; apply Permutation_in;
    [exact H | apply Permutation_sym, H].
Qed.

(** Duplicate-free lists of one length that hold the same addresses are
    rearrangements of each other. *)
Lemma sameSet_NoDup_perm (hosts peers : list string) :
  NoDup peers -> sameSet peers hosts -> length peers = length hosts ->
  Permutation hosts peers.
Proof.
  intros Hnd Hset Hlen. apply Permutation_sym.
  apply NoDup_Permutation_bis; [exact Hnd|lia|].
  intros x Hx. apply Hset, Hx.
Qed.

(** ** The per-partition diagnosis *)

Lemma append_assoc (a b c : string) : (a ++ b) ++ c = a ++ (b ++ c).
Proof.
  induction a as [|x a IH]; simpl; [reflexivity|].
  rewrite IH. reflexivity.
Qed.

Lemma append_empty_r (a : string) : a ++ "" = a.
Proof.
  induction a as [|x a IH]; simpl; [reflexivity|].
  rewrite IH. reflexivity.
Qed.

Lemma checkReplica_step client partition hosts r sb isHealthy :
  checkReplica client partition hosts r (sb, isHealthy)
  = (sb ++ replicaRow client partition r,
     isHealthy && replicaAgrees client partition hosts r).
Proof.
  unfold checkReplica, replicaRow, replicaAgrees.
  destruct (MetaNodeGetPartition client _ _) as [mn|err].
  - destruct (isEqualStrings hosts _), (N.eqb _ _), isHealthy; reflexivity.
  - rewrite andb_false_r. reflexivity.
Qed.

Lemma checkReplicas_steps client partition hosts replicas sb isHealthy :
  checkReplicas client partition hosts replicas (sb, isHealthy)
  = (sb ++ String.concat "" (map (replicaRow client partition) replicas),
     isHealthy && forallb (replicaAgrees client partition hosts) replicas).
Proof.
  revert sb isHealthy. induction replicas as [|r rest IH]; intros sb h.
  - simpl. rewrite append_empty_r, andb_true_r. reflexivity.
  - cbn [checkReplicas]. rewrite checkReplica_step, IH.
    rewrite append_assoc, <- andb_assoc. f_equal.
    cbn [map forallb]. f_equal.
    destruct (map (replicaRow client partition) rest) eqn:Hm;
      cbn [String.concat append]; [rewrite append_empty_r|]; reflexivity.
Qed.

(** The result for a record that was fetched: the report is the summary
    row, the red line when the master's own data is off, and one row per
    replica; the verdict is the conjunction of all tests. *)
Lemma checkMetaPartition_fetched pid client partition :
  GetMetaPartition client pid = Ok (Some partition) ->
  let hosts := Go.Strings (Hosts partition) in
  checkMetaPartition pid client
  = (formatMetaPartitionInfoRow partition ++ Go.nl
       ++ (if masterReportsUnhealthy partition hosts
           then unhealthyLine else "")
       ++ String.concat ""
            (map (replicaRow client partition) (Replicas partition)),
     negb (masterReportsUnhealthy partition hosts)
     && forallb (replicaAgrees client partition hosts) (Replicas partition),
     None).
Proof.
  intros Hget hosts. unfold checkMetaPartition. rewrite Hget.
  fold hosts. cbn [append].
  destruct (masterReportsUnhealthy partition hosts);
    rewrite checkReplicas_steps; cbn [negb andb];
    rewrite ?append_assoc; reflexivity.
Qed.

Lemma checkMetaPartition_fetch_failed pid client err :
  GetMetaPartition client pid = Err err ->
  checkMetaPartition pid client = ("", true, Some err).
Proof. intros Hget. unfold checkMetaPartition. rewrite Hget. reflexivity. Qed.

Lemma String_concat_cons (a : string) (l : list string) :
  String.concat "" (a :: l) = a ++ String.concat "" l.
Proof.
  destruct l; cbn [String.concat append];
    [rewrite append_empty_r|]; reflexivity.
Qed.

Lemma String_concat_app (l1 l2 : list string) :
  String.concat "" (l1 ++ l2)%list
  = String.concat "" l1 ++ String.concat "" l2.
Proof.
  induction l1 as [|a l1 IH]; [reflexivity|].
  cbn [app]. rewrite !String_concat_cons, IH, append_assoc. reflexivity.
Qed.

Lemma masterReportsUnhealthy_false partition :
  MissNodes partition = [] ->
  Status partition <> (-1)%Z ->
  N.of_nat (length (Hosts partition)) = ReplicaNum partition ->
  masterReportsUnhealthy partition (Go.Strings (Hosts partition)) = false.
Proof.
  intros Hmiss Hstatus Hlen. unfold masterReportsUnhealthy.
  rewrite Hmiss. cbn [length Nat.ltb Nat.leb orb].
  apply Z.eqb_neq in Hstatus. rewrite Hstatus. cbn [orb].
  unfold Go.Strings. rewrite SliceStable_length, Hlen, N.eqb_refl.
  reflexivity.
Qed.

Lemma masterReportsUnhealthy_true partition :
  MissNodes partition <> []
  \/ Status partition = (-1)%Z
  \/ N.of_nat (length (Hosts partition)) <> ReplicaNum partition ->
  masterReportsUnhealthy partition (Go.Strings (Hosts partition)) = true.
Proof.
  unfold masterReportsUnhealthy. intros [Hmiss|[Hstatus|Hlen]].
  - destruct (MissNodes partition); [congruence|reflexivity].
  - rewrite Hstatus. cbn [Z.eqb]. rewrite Pos.eqb_refl.
    apply orb_true_iff. left. apply orb_true_r.
  - unfold Go.Strings. rewrite SliceStable_length.
    apply N.eqb_neq in Hlen. rewrite Hlen. apply orb_true_r.
Qed.

Lemma replicaAgrees_true client partition r :
  replicaAgrees client partition (Go.Strings (Hosts partition)) r = true ->
  exists mnPartition,
    MetaNodeGetPartition client (Go.first (Go.Split (Addr r) ":"))
      (PartitionID partition) = Ok mnPartition
    /\ Permutation (Hosts partition)
         (convertPeersToArray (Peers mnPartition))
    /\ N.of_nat (length (Peers mnPartition)) = ReplicaNum partition.
Proof.
  unfold replicaAgrees.
  destruct (MetaNodeGetPartition client _ _) as [mn|err]; [|discriminate].
  intros H. apply andb_true_iff in H. destruct H as [Heq Hcount].
  exists mn. split; [reflexivity|]. split.
  - apply isEqualStrings_sorted, Heq.
  - apply N.eqb_eq in Hcount. unfold Go.Strings in Hcount.
    rewrite SliceStable_length in Hcount. unfold convertPeersToArray in Hcount.
    rewrite length_map in Hcount. exact Hcount.
Qed.

Lemma replicaAgrees_perm client partition r mnPartition :
  MetaNodeGetPartition client (Go.first (Go.Split (Addr r) ":"))
    (PartitionID partition) = Ok mnPartition ->
  N.of_nat (length (Hosts partition)) = ReplicaNum partition ->
  Permutation (Hosts partition) (convertPeersToArray (Peers mnPartition)) ->
  replicaAgrees client partition (Go.Strings (Hosts partition)) r = true.
Proof.
  intros Hquery Hlen Hperm. unfold replicaAgrees. rewrite Hquery.
  apply andb_true_iff. split.
  - apply isEqualStrings_sorted, Hperm.
  - unfold Go.Strings. rewrite SliceStable_length.
    rewrite <- (Permutation_length Hperm). apply N.eqb_eq, Hlen.
Qed.

(** C1.  A record that was fetched, with no missing host, a status other
    than -1 and as many hosts as [ReplicaNum], all of whose replicas
    answer with a peer set (pairwise distinct addresses) that holds the
    same addresses as the hosts and has [ReplicaNum] entries, is judged
    healthy. *)
Theorem healthy_when_master_and_replicas_agree pid client partition :
  GetMetaPartition client pid = Ok (Some partition) ->
  MissNodes partition = [] ->
  Status partition <> (-1)%Z ->
  N.of_nat (length (Hosts partition)) = ReplicaNum partition ->
  (forall r, In r (Replicas partition) ->
     exists mnPartition,
       MetaNodeGetPartition client (Go.first (Go.Split (Addr r) ":"))
         (PartitionID partition) = Ok mnPartition
       /\ NoDup (convertPeersToArray (Peers mnPartition))
       /\ sameSet (convertPeersToArray (Peers mnPartition)) (Hosts partition)
       /\ N.of_nat (length (convertPeersToArray (Peers mnPartition)))
          = ReplicaNum partition) ->
  verdictOf (checkMetaPartition pid client) = true.
Proof.
  intros Hget Hmiss Hstatus Hlen Hreplicas.
  rewrite (checkMetaPartition_fetched _ _ Hget). unfold verdictOf.
  cbn [fst snd].
  rewrite (masterReportsUnhealthy_false _ Hmiss Hstatus Hlen).
  cbn [negb andb]. apply forallb_forall. intros r Hr.
  destruct (Hreplicas r Hr) as (mn & Hquery & Hnodup & Hset & Hcount).
  unfold replicaAgrees. rewrite Hquery. apply andb_true_iff. split.
  - apply isEqualStrings_sorted, sameSet_NoDup_perm; [exact Hnodup|exact Hset|].
    apply Nat2N.inj. rewrite Hcount, Hlen. reflexivity.
  - unfold Go.Strings. rewrite SliceStable_length. apply N.eqb_eq, Hcount.
Qed.

(** C2.  A record that was fetched and has a missing host, or the
    status -1, or a number of hosts other than [ReplicaNum], is judged
    unhealthy. *)
Theorem unhealthy_when_master_report_is_off pid client partition :
  GetMetaPartition client pid = Ok (Some partition) ->
  (MissNodes partition <> []
   \/ Status partition = (-1)%Z
   \/ N.of_nat (length (Hosts partition)) <> ReplicaNum partition) ->
  verdictOf (checkMetaPartition pid client) = false.
Proof.
  intros Hget Hoff.
  rewrite (checkMetaPartition_fetched _ _ Hget). unfold verdictOf.
  cbn [fst snd]. rewrite (masterReportsUnhealthy_true _ Hoff).
  reflexivity.
Qed.

(** C3.  The comparison of a replica's peer view with the hosts does not
    depend on the order: for a peer view that is a rearrangement of the
    hosts the sorted lists compare equal, and with the right count the
    health flag is left as it was.  A peer view that does not hold the
    same addresses as the hosts, or whose count differs from
    [ReplicaNum], makes the verdict unhealthy.  For a record that the
    master reports in order, the verdict is healthy exactly when every
    replica answers with a rearrangement of the hosts. *)
Theorem peer_comparison_ignores_order pid client partition r mnPartition :
  GetMetaPartition client pid = Ok (Some partition) ->
  In r (Replicas partition) ->
  MetaNodeGetPartition client (Go.first (Go.Split (Addr r) ":"))
    (PartitionID partition) = Ok mnPartition ->
  let peers := convertPeersToArray (Peers mnPartition) in
  let hosts := Go.Strings (Hosts partition) in
  let peerStrings := Go.Strings peers in
  (Permutation (Hosts partition) peers ->
     isEqualStrings hosts peerStrings = true
     /\ (N.of_nat (length peerStrings) = ReplicaNum partition ->
         forall sb isHealthy,
           snd (checkReplica client partition hosts r (sb, isHealthy))
           = isHealthy))
  /\ (~ sameSet (Hosts partition) peers ->
        isEqualStrings hosts peerStrings = false
        /\ verdictOf (checkMetaPartition pid client) = false)
  /\ (N.of_nat (length peerStrings) <> ReplicaNum partition ->
        verdictOf (checkMetaPartition pid client) = false)
  /\ (MissNodes partition = [] ->
      Status partition <> (-1)%Z ->
      N.of_nat (length (Hosts partition)) = ReplicaNum partition ->
      (verdictOf (checkMetaPartition pid client) = true
       <-> forall r', In r' (Replicas partition) ->
             exists mn',
               MetaNodeGetPartition client
                 (Go.first (Go.Split (Addr r') ":"))
                 (PartitionID partition) = Ok mn'
               /\ Permutation (Hosts partition)
                    (convertPeersToArray (Peers mn')))).
Proof.
  intros Hget Hr Hquery peers hosts peerStrings.
  assert (Hverdict : replicaAgrees client partition hosts r = false ->
                     verdictOf (checkMetaPartition pid client) = false).
  { intros Hno. rewrite (checkMetaPartition_fetched _ _ Hget).
    unfold verdictOf. cbn [fst snd]. fold hosts.
    apply andb_false_iff. right.
    destruct (forallb _ _) eqn:Hall; [|reflexivity].
    rewrite forallb_forall in Hall. rewrite (Hall r Hr) in Hno.
    discriminate. }
  assert (Hagree : replicaAgrees client partition hosts r
                   = isEqualStrings hosts peerStrings
                     && (N.of_nat (length peerStrings)
                           =? ReplicaNum partition)%N).
  { unfold replicaAgrees. rewrite Hquery. reflexivity. }
  split; [|split; [|split]].
  - intros Hperm.
    assert (Heq : isEqualStrings hosts peerStrings = true)
      by (apply isEqualStrings_sorted, Hperm).
    split; [exact Heq|]. intros Hcount sb isHealthy.
    rewrite checkReplica_step. cbn [snd]. rewrite Hagree, Heq.
    apply N.eqb_eq in Hcount. rewrite Hcount. apply andb_true_r.
  - intros Hdiff.
    assert (Hneq : isEqualStrings hosts peerStrings = false).
    { destruct (isEqualStrings hosts peerStrings) eqn:Heq; [|reflexivity].
      exfalso. apply Hdiff, sameSet_perm, isEqualStrings_sorted, Heq. }
    split; [exact Hneq|]. apply Hverdict. rewrite Hagree, Hneq.
    reflexivity.
  - intros Hcount. apply Hverdict. rewrite Hagree.
    apply N.eqb_neq in Hcount. rewrite Hcount. apply andb_false_r.
  - intros Hmiss Hstatus Hlen.
    rewrite (checkMetaPartition_fetched _ _ Hget). unfold verdictOf.
    cbn [fst snd].
    rewrite (masterReportsUnhealthy_false _ Hmiss Hstatus Hlen).
    cbn [negb andb]. rewrite forallb_forall. split.
    + intros Hall r' Hr'.
      destruct (replicaAgrees_true _ _ _ (Hall r' Hr'))
        as (mn' & Hquery' & Hperm' & _).
      exists mn'. split; assumption.
    + intros Hall r' Hr'.
      destruct (Hall r' Hr') as (mn' & Hquery' & Hperm').
      apply (replicaAgrees_perm _ _ _ Hquery' Hlen Hperm').
Qed.

(** C4, as the code has it.  When the query of a replica fails, the
    verdict is unhealthy, the report gets a row for that replica whose
    count cell is the word nil over [ReplicaNum] (nil/3, not 0/3) and
    whose last cell carries the error text, and the rows of the replicas
    after it follow: the loop goes on. *)
Theorem failed_replica_query_is_reported pid client partition
    before r after err :
  GetMetaPartition client pid = Ok (Some partition) ->
  Replicas partition = (before ++ r :: after)%list ->
  MetaNodeGetPartition client (Go.first (Go.Split (Addr r) ":"))
    (PartitionID partition) = Err err ->
  let result := checkMetaPartition pid client in
  let head :=
    formatMetaPartitionInfoRow partition ++ Go.nl
      ++ (if masterReportsUnhealthy partition (Go.Strings (Hosts partition))
          then unhealthyLine else "")
      ++ String.concat "" (map (replicaRow client partition) before) in
  verdictOf result = false
  /\ reportOf result
     = head
         ++ (partitionInfoColorTablePattern "" "" "" (Addr r)
               ("nil/" ++ Go.showN (ReplicaNum partition))
               ("get partition info failed, err:" ++ err) ++ Go.nl)
         ++ String.concat "" (map (replicaRow client partition) after)
  /\ errOf result = None.
Proof.
  intros Hget Hsplit Hquery result head. subst result head.
  rewrite (checkMetaPartition_fetched _ _ Hget).
  unfold verdictOf, reportOf, errOf. cbn [fst snd].
  rewrite Hsplit. split; [|split; [|reflexivity]].
  - apply andb_false_iff. right. rewrite forallb_app. cbn [forallb].
    unfold replicaAgrees at 2. rewrite Hquery.
    cbn [andb]. apply andb_false_r.
  - rewrite map_app, String_concat_app. cbn [map].
    rewrite String_concat_cons. unfold replicaRow at 2. rewrite Hquery.
    unfold failedRow. rewrite !append_assoc. reflexivity.
Qed.

(** C9.  When the fetch of the record fails, the verdict returned is
    healthy, and the goroutine of the sweep for that partition writes
    nothing. *)
Theorem fetch_failure_is_skipped_by_sweep client pid err :
  GetMetaPartition client pid = Err err ->
  verdictOf (checkMetaPartition pid client) = true
  /\ forall mp, ViewPartitionID mp = pid -> checkTask client mp = [].
Proof.
  intros Hget. split.
  - rewrite (checkMetaPartition_fetch_failed _ _ Hget). reflexivity.
  - intros mp Hmp. unfold checkTask. rewrite Hmp.
    rewrite (checkMetaPartition_fetch_failed _ _ Hget). reflexivity.
Qed.

(** ** The sweep over all partitions *)

Lemma checkTask_cases client mp :
  checkTask client mp
  = if verdictOf (checkMetaPartition (ViewPartitionID mp) client)
    then []
    else [fmtPrintfFormat
            (reportOf (checkMetaPartition (ViewPartitionID mp) client));
          stdoutGreen sweepSeparator].
Proof.
  unfold checkTask, verdictOf, reportOf.
  destruct (checkMetaPartition (ViewPartitionID mp) client)
    as [[outPut isHealthy] err].
  destruct isHealthy; reflexivity.
Qed.

Lemma interleaves_subseq (A : Type) (tasks : list (list A)) (out : list A) :
  interleaves tasks out -> forall t, In t tasks -> subseq t out.
Proof.
  induction 1 as [tasks Hall|before x t0 after out _ IH]; intros t Ht.
  - rewrite Forall_forall in Hall. rewrite (Hall t Ht). constructor.
  - apply in_app_or in Ht. destruct Ht as [Ht|[Ht|Ht]].
    + apply subseq_skip, IH, in_or_app. left. exact Ht.
    + subst t. apply subseq_take, IH, in_or_app. right. left. reflexivity.
    + apply subseq_skip, IH, in_or_app. right. right. exact Ht.
Qed.

Lemma interleaves_origin (A : Type) (tasks : list (list A)) (out : list A) :
  interleaves tasks out ->
  forall e, In e out -> exists t, In t tasks /\ In e t.
Proof.
  induction 1 as [tasks Hall|before x t0 after out _ IH]; intros e He.
  - destruct He.
  - destruct He as [He|He].
    + subst e. exists (x :: t0). split; [|left; reflexivity].
      apply in_or_app. right. left. reflexivity.
    + destruct (IH e He) as (t & Ht & Het).
      apply in_app_or in Ht. destruct Ht as [Ht|[Ht|Ht]].
      * exists t. split; [apply in_or_app; left; exact Ht|exact Het].
      * subst t. exists (x :: t0). split; [|right; exact Het].
        apply in_or_app. right. left. reflexivity.
      * exists t. split; [|exact Het].
        apply in_or_app. right. right. exact Ht.
Qed.

Lemma subseq_cons_split (A : Type) (a : A) (s l : list A) :
  subseq (a :: s) l ->
  exists o l', l = (o ++ a :: l')%list /\ subseq s l'.
Proof.
  induction l as [|x l IH]; intros H; inversion H; subst.
  - exists [], l. split; [reflexivity|assumption].
  - destruct (IH H2) as (o & l' & -> & Hs).
    exists (x :: o), l'. split; [reflexivity|assumption].
Qed.

Lemma subseq_pair_writtenBefore (a b : OutEvent) (out : Output) :
  subseq [a; b] out -> writtenBefore a b out.
Proof.
  intros H. apply subseq_cons_split in H. destruct H as (o1 & l1 & -> & H).
  apply subseq_cons_split in H. destruct H as (o2 & o3 & -> & _).
  exists o1, o2, o3. reflexivity.
Qed.

(** The goroutines started for the partitions of one volume, under any
    interleaving of what they write. *)
Lemma fanout_prints_unhealthy_only client mps out :
  interleaves (map (checkTask client) (sortViews mps)) out ->
  (forall mp, In mp mps ->
     let result := checkMetaPartition (ViewPartitionID mp) client in
     (checkTask client mp <> [] <-> verdictOf result = false)
     /\ (verdictOf result = false ->
         writtenBefore (fmtPrintfFormat (reportOf result))
           (stdoutGreen sweepSeparator) out))
  /\ (forall e, In e out ->
        exists mp,
          In mp mps
          /\ verdictOf (checkMetaPartition (ViewPartitionID mp) client)
             = false
          /\ (e = fmtPrintfFormat
                    (reportOf
                       (checkMetaPartition (ViewPartitionID mp) client))
              \/ e = stdoutGreen sweepSeparator)).
Proof.
  intros Hout. split.
  - intros mp Hmp result. subst result. split.
    + rewrite checkTask_cases.
      destruct (verdictOf _); split; congruence.
    + intros Hbad. apply subseq_pair_writtenBefore.
      apply (interleaves_subseq Hout).
      apply in_map_iff. exists mp. split.
      * rewrite checkTask_cases, Hbad. reflexivity.
      * apply SliceStable_In, Hmp.
  - intros e He.
    destruct (interleaves_origin Hout e He) as (t & Ht & Het).
    apply in_map_iff in Ht. destruct Ht as (mp & <- & Hmp).
    apply SliceStable_In in Hmp. exists mp. split; [exact Hmp|].
    rewrite checkTask_cases in Het.
    destruct (verdictOf _); [destruct Het|].
    split; [reflexivity|].
    destruct Het as [<-|[<-|[]]]; [left|right]; reflexivity.
Qed.

Lemma writtenBefore_app_l a b (o o' : Output) :
  writtenBefore a b o -> writtenBefore a b (o ++ o')%list.
Proof.
  intros (o1 & o2 & o3 & ->). exists o1, o2, (o3 ++ o')%list.
  rewrite <- app_assoc. cbn [app]. rewrite <- app_assoc. reflexivity.
Qed.

Lemma writtenBefore_app_r a b (o o' : Output) :
  writtenBefore a b o' -> writtenBefore a b (o ++ o')%list.
Proof.
  intros (o1 & o2 & o3 & ->). exists (o ++ o1)%list, o2, o3.
  rewrite <- app_assoc. reflexivity.
Qed.

Lemma diagnosed_cons client vol rest mp :
  diagnosed client rest mp -> diagnosed client (vol :: rest) mp.
Proof.
  intros (v & view & Hv & Hget & Hmp). exists v, view.
  split; [right; exact Hv|]. split; assumption.
Qed.

Lemma sweepVolumes_prints client volInfo :
  forall err out err',
    sweepVolumes client volInfo err out err' ->
    (forall mp, diagnosed client volInfo mp ->
       let result := checkMetaPartition (ViewPartitionID mp) client in
       verdictOf result = false ->
       writtenBefore (fmtPrintfFormat (reportOf result))
         (stdoutGreen sweepSeparator) out)
    /\ (forall e, In e out ->
          (exists text, e = stdout text)
          \/ exists mp,
               diagnosed client volInfo mp
               /\ verdictOf (checkMetaPartition (ViewPartitionID mp) client)
                  = false
               /\ (e = fmtPrintfFormat
                         (reportOf
                            (checkMetaPartition (ViewPartitionID mp) client))
                   \/ e = stdoutGreen sweepSeparator)).
Proof.
  induction volInfo as [|vol rest IH]; intros err out err' Hrun.
  - destruct Hrun as [-> _]. split.
    + intros mp (v & _ & [] & _).
    + intros e [].
  - cbn [sweepVolumes] in Hrun.
    destruct (GetVolume client (Name vol) (calcAuthKey (Owner vol)))
      as [volView|e] eqn:Hget.
    + destruct Hrun as (o1 & o2 & -> & Hfan & Hrest).
      destruct (IH _ _ _ Hrest) as (IHbad & IHall).
      destruct (fanout_prints_unhealthy_only _ _ Hfan) as (Hbad & Hall).
      split.
      * intros mp (v & view & [<-|Hv] & Hview & Hmp) result Hverdict.
        -- rewrite Hget in Hview. injection Hview as <-.
           apply writtenBefore_app_l, (Hbad mp Hmp), Hverdict.
        -- apply writtenBefore_app_r, IHbad; [|exact Hverdict].
           exists v, view. repeat split; assumption.
      * intros ev Hev. apply in_app_or in Hev. destruct Hev as [Hev|Hev].
        -- right. destruct (Hall ev Hev) as (mp & Hmp & Hverdict & Hwhich).
           exists mp. split; [|split; assumption].
           exists vol, volView. split; [left; reflexivity|].
           split; assumption.
        -- destruct (IHall ev Hev) as [Htext|(mp & Hd & Hrest')];
             [left; exact Htext|right].
           exists mp. split; [apply diagnosed_cons, Hd|exact Hrest'].
    + destruct Hrun as (out' & -> & Hrest).
      destruct (IH _ _ _ Hrest) as (IHbad & IHall). split.
      * intros mp (v & view & [<-|Hv] & Hview & Hmp) result Hverdict.
        -- rewrite Hget in Hview. discriminate.
        -- apply (writtenBefore_app_r [_]), IHbad; [|exact Hverdict].
           exists v, view. repeat split; assumption.
      * intros ev [<-|Hev]; [left; eexists; reflexivity|].
        destruct (IHall ev Hev) as [Htext|(mp & Hd & Hrest')];
          [left; exact Htext|right].
        exists mp. split; [apply diagnosed_cons, Hd|exact Hrest'].
Qed.

(** C6.  In a run of the sweep over all volumes, under any interleaving
    of what the goroutines of a volume write: a diagnosed partition writes
    something exactly when its verdict is unhealthy; the report of an
    unhealthy partition is written, and the separator line is written
    after it; and apart from the lines of [stdout] nothing reaches the
    terminal but reports and separators of unhealthy partitions. *)
Theorem sweep_prints_unhealthy_only client volInfo out err :
  ListVols client "" = Ok volInfo ->
  checkAllMetaPartitions client out err ->
  (forall mp, diagnosed client volInfo mp ->
     let result := checkMetaPartition (ViewPartitionID mp) client in
     (checkTask client mp <> [] <-> verdictOf result = false)
     /\ (verdictOf result = true -> checkTask client mp = [])
     /\ (verdictOf result = false ->
         writtenBefore (fmtPrintfFormat (reportOf result))
           (stdoutGreen sweepSeparator) out))
  /\ (forall e, In e out ->
        (exists text, e = stdout text)
        \/ exists mp,
             diagnosed client volInfo mp
             /\ verdictOf (checkMetaPartition (ViewPartitionID mp) client)
                = false
             /\ (e = fmtPrintfFormat
                       (reportOf
                          (checkMetaPartition (ViewPartitionID mp) client))
                 \/ e = stdoutGreen sweepSeparator)).
Proof.
  intros Hvols Hrun. unfold checkAllMetaPartitions in Hrun.
  rewrite Hvols in Hrun. destruct Hrun as (o & -> & Hsweep).
  destruct (sweepVolumes_prints _ _ _ _ _ Hsweep) as (Hbad & Hall). split.
  - intros mp Hmp result. subst result. split; [|split].
    + rewrite checkTask_cases. destruct (verdictOf _); split; congruence.
    + intros Hgood. rewrite checkTask_cases, Hgood. reflexivity.
    + intros Hverdict. apply writtenBefore_app_r, (Hbad mp Hmp), Hverdict.
  - intros e He. apply in_app_or in He. destruct He as [He|He].
    + left. destruct He as [<-|[<-|[<-|[]]]]; eexists; reflexivity.
    + apply Hall, He.
Qed.


(** ** The default listing *)

Lemma listCorrupt_found client pids records :
  found client pids records ->
  listCorrupt client pids = (map partitionRow records, Next).
Proof.
  induction 1 as [|pid partition pids records Hget _ IH]; [reflexivity|].
  cbn [listCorrupt]. rewrite Hget, IH. reflexivity.
Qed.

Lemma listCorrupt_error client before records pid rest err :
  found client before records ->
  GetMetaPartition client pid = Err err ->
  listCorrupt client (before ++ pid :: rest)%list
  = ((map partitionRow records ++ [notFound err])%list, Returned).
Proof.
  intros Hfound Hget.
  induction Hfound as [|pid' partition pids records Hget' _ IH].
  - cbn [app listCorrupt]. rewrite Hget. reflexivity.
  - cbn [app listCorrupt]. rewrite Hget', IH. reflexivity.
Qed.

Lemma listLackReplicas_answered client pids ptrs :
  answered client pids ptrs ->
  listLackReplicas client pids = (lackBlocks client ptrs, Next).
Proof.
  induction 1 as [|pid ptr pids ptrs Hget _ IH]; [reflexivity|].
  cbn [listLackReplicas]. rewrite Hget, IH.
  destruct ptr; reflexivity.
Qed.

Lemma listLackReplicas_error client before ptrs pid rest err :
  answered client before ptrs ->
  GetMetaPartition client pid = Err err ->
  listLackReplicas client (before ++ pid :: rest)%list
  = ((lackBlocks client ptrs ++ [notFound err])%list, Returned).
Proof.
  intros Hans Hget.
  induction Hans as [|pid' ptr pids ptrs Hget' _ IH].
  - cbn [app listLackReplicas]. rewrite Hget. reflexivity.
  - cbn [app listLackReplicas]. rewrite Hget', IH.
    destruct ptr; [|reflexivity].
    unfold lackBlocks. cbn [flat_map andThen fst snd].
    rewrite app_assoc. reflexivity.
Qed.

Lemma derefAll_some (A : Type) (ptrs : list (option A)) (l : list A) :
  derefAll ptrs = Some l -> ptrs = map Some l.
Proof.
  revert l. induction ptrs as [|[a|] ptrs IH]; intros l; cbn [derefAll].
  - intros H. injection H as <-. reflexivity.
  - destruct (derefAll ptrs) as [l'|]; [|discriminate].
    intros H. injection H as <-. cbn [map]. rewrite (IH l' eq_refl).
    reflexivity.
  - discriminate.
Qed.

Lemma sortNodes_sorted (nodes : list MetaNodeInfo) :
  Sorted byID (sortNodes nodes).
Proof.
  assert (H : Sorted (Go.notAfter (fun a b => (ID a <? ID b)%N))
                (sortNodes nodes)).
  { apply SliceStable_sorted. intros a b. apply N_ltb_asym. }
  induction H as [|x s Hs IH Hhd]; constructor; [exact IH|].
  destruct Hhd as [|y s' Hxy]; constructor.
  unfold Go.notAfter in Hxy. apply N.ltb_ge, Hxy.
Qed.

Lemma listDiagnosis_permuted client d d' :
  Permutation (InactiveMetaNodes d) (InactiveMetaNodes d') ->
  Permutation (CorruptMetaPartitionIDs d) (CorruptMetaPartitionIDs d') ->
  Permutation (LackReplicaMetaPartitionIDs d)
    (LackReplicaMetaPartitionIDs d') ->
  listDiagnosis client d = listDiagnosis client d'.
Proof.
  intros Hi Hc Hl. unfold listDiagnosis, listInactiveNodes, sortedMetaNodes.
  rewrite (Strings_unique Hi), (sortIDs_unique Hc), (sortIDs_unique Hl).
  reflexivity.
Qed.

Lemma Sorted_weaken (A : Type) (R R' : A -> A -> Prop) (l : list A) :
  (forall a b, R a b -> R' a b) -> Sorted R l -> Sorted R' l.
Proof.
  intros Himp. induction 1 as [|x l Hs IH Hhd]; constructor; [exact IH|].
  destruct Hhd as [|y l' Hxy]; constructor. apply Himp, Hxy.
Qed.

Lemma Strings_ascending (l : list string) : Sorted ascending (Go.Strings l).
Proof.
  apply Sorted_weaken with (R := Go.notAfter String.ltb).
  - intros a b. unfold Go.notAfter, ascending, String.ltb, String.leb.
    rewrite (String.compare_antisym a b).
    destruct (String.compare b a); simpl; congruence.
  - apply SliceStable_sorted, string_ltb_asym.
Qed.

(** The stable sort keeps the elements that it cannot tell apart in the
    order in which they came. *)
Lemma insert_filter (A : Type) (less : A -> A -> bool) (p : A -> bool)
    (x : A) (l : list A) :
  (forall a b, p a = true -> p b = true -> less a b = false) ->
  filter p (Go.insert less x l) = filter p (x :: l).
Proof.
  intros Hsame. induction l as [|y l IH]; [reflexivity|].
  cbn [Go.insert]. destruct (less y x) eqn:Hyx; [|reflexivity].
  cbn [filter] in *. rewrite IH.
  destruct (p x) eqn:Hpx, (p y) eqn:Hpy; try reflexivity.
  rewrite (Hsame y x Hpy Hpx) in Hyx. discriminate.
Qed.

Lemma SliceStable_filter (A : Type) (less : A -> A -> bool) (p : A -> bool)
    (l : list A) :
  (forall a b, p a = true -> p b = true -> less a b = false) ->
  filter p (Go.SliceStable less l) = filter p l.
Proof.
  intros Hsame. induction l as [|x l IH]; [reflexivity|].
  cbn [Go.SliceStable]. rewrite (@insert_filter _ _ _ x _ Hsame).
  cbn [filter]. rewrite IH. reflexivity.
Qed.

Lemma derefAll_fetched client addrs nodes :
  derefAll (fetchMetaNodes client addrs) = Some nodes ->
  fetchedNodes client addrs nodes.
Proof.
  revert nodes. induction addrs as [|a addrs IH]; intros nodes;
    cbn [fetchMetaNodes map derefAll].
  - intros H. injection H as <-. constructor.
  - fold (fetchMetaNodes client addrs).
    destruct (GetMetaNode client a) as [node|e] eqn:Hget; [|discriminate].
    destruct (derefAll (fetchMetaNodes client addrs)) as [l|];
      [|discriminate].
    intros H. injection H as <-. constructor; [exact Hget|].
    apply IH. reflexivity.
Qed.

Lemma derefAll_none client addrs :
  derefAll (fetchMetaNodes client addrs) = None
  <-> exists addr e, In addr addrs /\ GetMetaNode client addr = Err e.
Proof.
  induction addrs as [|a addrs IH]; cbn [fetchMetaNodes map derefAll].
  - split; [discriminate|]. intros (addr & e & [] & _).
  - fold (fetchMetaNodes client addrs).
    destruct (GetMetaNode client a) as [node|e] eqn:Hget.
    + destruct (derefAll (fetchMetaNodes client addrs)) as [l|] eqn:Hrest.
      * split; [discriminate|]. intros (addr & e & [<-|Hin] & Herr).
        -- rewrite Hget in Herr. discriminate.
        -- exfalso. assert (Habs : Some l = None)
             by (apply IH; exists addr, e; split; assumption).
           discriminate.
      * split; [|reflexivity]. intros _.
        destruct (proj1 IH eq_refl) as (addr & e & Hin & Herr).
        exists addr, e. split; [right; exact Hin|exact Herr].
    + split; [|reflexivity]. intros _. exists a, e.
      split; [left; reflexivity|exact Hget].
Qed.

(** What the loop over the corrupt IDs prints: the rows of the IDs up to
    the first one that the master does not find, in the order of the
    list. *)
Lemma listCorrupt_segments client pids :
  exists shown rest records stop,
    pids = (shown ++ rest)%list
    /\ found client shown records
    /\ fst (listCorrupt client pids)
       = (map partitionRow records ++ stop)%list
    /\ ((rest = [] /\ stop = [])
        \/ (exists pid rest' err,
              rest = pid :: rest'
              /\ GetMetaPartition client pid = Err err
              /\ stop = [notFound err])
        \/ (exists pid rest',
              rest = pid :: rest'
              /\ GetMetaPartition client pid = Ok None
              /\ stop = [])).
Proof.
  induction pids as [|p pids IH].
  - exists [], [], [], []. split; [reflexivity|].
    split; [constructor|]. split; [reflexivity|].
    left. split; reflexivity.
  - cbn [listCorrupt].
    destruct (GetMetaPartition client p) as [[partition|]|err] eqn:Hget.
    + destruct IH as (shown & rest & records & stop & -> & Hfound
                        & Hout & Hcases).
      exists (p :: shown), rest, (partition :: records), stop.
      split; [reflexivity|]. split; [constructor; assumption|].
      split; [|exact Hcases].
      destruct (listCorrupt client (shown ++ rest)) as [o e].
      cbn [fst] in Hout. subst o. reflexivity.
    + exists [], (p :: pids), [], []. split; [reflexivity|].
      split; [constructor|]. split; [reflexivity|].
      right. right. exists p, pids.
      split; [reflexivity|]. split; [exact Hget|reflexivity].
    + exists [], (p :: pids), [], [notFound err]. split; [reflexivity|].
      split; [constructor|]. split; [reflexivity|].
      right. left. exists p, pids, err.
      split; [reflexivity|]. split; [exact Hget|reflexivity].
Qed.

(** The same for the loop over the IDs that lack replicas, which passes
    over a nil record. *)
Lemma listLackReplicas_segments client pids :
  exists shown rest ptrs stop,
    pids = (shown ++ rest)%list
    /\ answered client shown ptrs
    /\ fst (listLackReplicas client pids)
       = (lackBlocks client ptrs ++ stop)%list
    /\ ((rest = [] /\ stop = [])
        \/ exists pid rest' err,
             rest = pid :: rest'
             /\ GetMetaPartition client pid = Err err
             /\ stop = [notFound err]).
Proof.
  induction pids as [|p pids IH].
  - exists [], [], [], []. split; [reflexivity|].
    split; [constructor|]. split; [reflexivity|].
    left. split; reflexivity.
  - cbn [listLackReplicas].
    destruct (GetMetaPartition client p) as [ptr|err] eqn:Hget.
    + destruct IH as (shown & rest & ptrs & stop & -> & Hans
                        & Hout & Hcases).
      exists (p :: shown), rest, (ptr :: ptrs), stop.
      split; [reflexivity|]. split; [constructor; assumption|].
      split; [|exact Hcases].
      destruct ptr as [partition|]; [|exact Hout].
      destruct (listLackReplicas client (shown ++ rest)) as [o e].
      cbn [fst] in Hout. subst o. unfold lackBlocks. cbn [flat_map].
      rewrite <- app_assoc. reflexivity.
    + exists [], (p :: pids), [], [notFound err]. split; [reflexivity|].
      split; [constructor|]. split; [reflexivity|].
      right. exists p, pids, err.
      split; [reflexivity|]. split; [exact Hget|reflexivity].
Qed.

(** How the three parts of the listing follow each other. *)
Lemma defaultCheck_parts client diagnosis :
  DiagnoseMetaPartition client = Ok diagnosis ->
  let nodes := listInactiveNodes client (InactiveMetaNodes diagnosis) in
  let corrupt :=
    listCorrupt client (sortIDs (CorruptMetaPartitionIDs diagnosis)) in
  let lack :=
    listLackReplicas client
      (sortIDs (LackReplicaMetaPartitionIDs diagnosis)) in
  fst (defaultCheck client)
  = (inactiveHeader ++ fst nodes
       ++ match snd nodes with
          | Next =>
              corruptHeader ++ fst corrupt
                ++ match snd corrupt with
                   | Next => lackHeader ++ fst lack
                   | _ => []
                   end
          | _ => []
          end)%list.
Proof.
  intros Hdiag nodes corrupt lack. unfold defaultCheck. rewrite Hdiag.
  unfold listDiagnosis. fold nodes corrupt lack.
  destruct nodes as [o1 e1], corrupt as [o2 e2], lack as [o3 e3].
  unfold inactiveHeader, corruptHeader, lackHeader.
  destruct e1, e2, e3; cbn [andThen say fst snd app];
    rewrite <- ?app_assoc, ?app_nil_r; reflexivity.
Qed.

(** C7, as the code has it.  The corrupt IDs and the IDs that lack
    replicas are sorted ascending, whatever order the master returned them
    in, and what is printed for them are the rows of the sorted list, in
    its order, up to the first ID that the master does not find.  The
    inactive addresses are sorted ascending and their nodes fetched in
    that order; the node rows are then printed in ascending order of the
    node IDs, nodes with the same ID in the order of their addresses. *)
Theorem diagnosis_lists_rendered_in_order client diagnosis :
  DiagnoseMetaPartition client = Ok diagnosis ->
  let corruptIDs := sortIDs (CorruptMetaPartitionIDs diagnosis) in
  let lackIDs := sortIDs (LackReplicaMetaPartitionIDs diagnosis) in
  let nodesListing :=
    listInactiveNodes client (InactiveMetaNodes diagnosis) in
  (Sorted N.le corruptIDs
   /\ Permutation corruptIDs (CorruptMetaPartitionIDs diagnosis))
  /\ (Sorted N.le lackIDs
      /\ Permutation lackIDs (LackReplicaMetaPartitionIDs diagnosis))
  /\ (exists shown rest records stop,
        corruptIDs = (shown ++ rest)%list
        /\ found client shown records
        /\ fst (listCorrupt client corruptIDs)
           = (map partitionRow records ++ stop)%list
        /\ ((rest = [] /\ stop = [])
            \/ (exists pid rest' err,
                  rest = pid :: rest'
                  /\ GetMetaPartition client pid = Err err
                  /\ stop = [notFound err])
            \/ (exists pid rest',
                  rest = pid :: rest'
                  /\ GetMetaPartition client pid = Ok None
                  /\ stop = [])))
  /\ (exists shown rest ptrs stop,
        lackIDs = (shown ++ rest)%list
        /\ answered client shown ptrs
        /\ fst (listLackReplicas client lackIDs)
           = (lackBlocks client ptrs ++ stop)%list
        /\ ((rest = [] /\ stop = [])
            \/ exists pid rest' err,
                 rest = pid :: rest'
                 /\ GetMetaPartition client pid = Err err
                 /\ stop = [notFound err]))
  /\ (exists sortedAddrs,
        Permutation sortedAddrs (InactiveMetaNodes diagnosis)
        /\ Sorted ascending sortedAddrs
        /\ ((exists addr err,
               In addr sortedAddrs
               /\ GetMetaNode client addr = Err err
               /\ nodesListing = ([], Panicked))
            \/ exists fetched metaNodes,
                 fetchedNodes client sortedAddrs fetched
                 /\ Permutation metaNodes fetched
                 /\ Sorted byID metaNodes
                 /\ (forall k,
                       filter (hasID k) metaNodes
                       = filter (hasID k) fetched)
                 /\ nodesListing = (map nodeRow metaNodes, Next)))
  /\ fst (defaultCheck client)
     = (inactiveHeader ++ fst nodesListing
          ++ match snd nodesListing with
             | Next =>
                 corruptHeader ++ fst (listCorrupt client corruptIDs)
                   ++ match snd (listCorrupt client corruptIDs) with
                      | Next =>
                          lackHeader
                            ++ fst (listLackReplicas client lackIDs)
                      | _ => []
                      end
             | _ => []
             end)%list
  /\ (forall diagnosis',
        Permutation (InactiveMetaNodes diagnosis')
          (InactiveMetaNodes diagnosis) ->
        Permutation (CorruptMetaPartitionIDs diagnosis')
          (CorruptMetaPartitionIDs diagnosis) ->
        Permutation (LackReplicaMetaPartitionIDs diagnosis')
          (LackReplicaMetaPartitionIDs diagnosis) ->
        listDiagnosis client diagnosis' = listDiagnosis client diagnosis).
Proof.
  intros Hdiag corruptIDs lackIDs nodesListing.
  split; [split; [apply sortIDs_sorted|apply SliceStable_perm]|].
  split; [split; [apply sortIDs_sorted|apply SliceStable_perm]|].
  split; [apply listCorrupt_segments|].
  split; [apply listLackReplicas_segments|].
  split; [|split].
  - exists (Go.Strings (InactiveMetaNodes diagnosis)).
    split; [apply Strings_perm|]. split; [apply Strings_ascending|].
    subst nodesListing. unfold listInactiveNodes, sortedMetaNodes.
    destruct (derefAll (fetchMetaNodes client
                          (Go.Strings (InactiveMetaNodes diagnosis))))
      as [nodes|] eqn:Hderef.
    + right. exists nodes, (sortNodes nodes).
      split; [apply derefAll_fetched, Hderef|].
      split; [apply SliceStable_perm|].
      split; [apply sortNodes_sorted|].
      split; [|reflexivity].
      intros k. unfold sortNodes. apply SliceStable_filter.
      intros a b Ha Hb. unfold hasID in Ha, Hb.
      apply N.eqb_eq in Ha, Hb. rewrite Ha, Hb. apply N.ltb_irrefl.
    + left. apply derefAll_none in Hderef.
      destruct Hderef as (addr & e & Hin & Herr).
      exists addr, e. repeat split; assumption.
  - apply (defaultCheck_parts _ Hdiag).
  - intros d' Hi Hc Hl. apply listDiagnosis_permuted; assumption.
Qed.

(** C8.  In the listing of the corrupt partitions, the first ID whose
    fetch fails ends the loop and the command: the rows of the IDs before
    it and the error message are the last output, whatever IDs come after
    it.  The per-partition check, in contrast, writes a row for every
    replica. *)
Theorem corrupt_listing_stops_at_first_error client diagnosis
    metaNodes before records pid rest err :
  DiagnoseMetaPartition client = Ok diagnosis ->
  sortedMetaNodes client (InactiveMetaNodes diagnosis) = Some metaNodes ->
  sortIDs (CorruptMetaPartitionIDs diagnosis)
  = (before ++ pid :: rest)%list ->
  found client before records ->
  GetMetaPartition client pid = Err err ->
  listCorrupt client (before ++ pid :: rest)%list
  = ((map partitionRow records ++ [notFound err])%list, Returned)
  /\ defaultCheck client
     = ((inactiveHeader ++ map nodeRow metaNodes
           ++ corruptHeader ++ map partitionRow records
           ++ [notFound err])%list, Returned)
  /\ (forall pid' partition,
        GetMetaPartition client pid' = Ok (Some partition) ->
        exists head,
          reportOf (checkMetaPartition pid' client)
          = head ++ String.concat ""
                      (map (replicaRow client partition)
                         (Replicas partition))).
Proof.
  intros Hdiag Hnodes Hsplit Hfound Hget. split; [|split].
  - apply listCorrupt_error; assumption.
  - unfold defaultCheck. rewrite Hdiag.
    unfold listDiagnosis, listInactiveNodes.
    rewrite Hnodes, Hsplit, (listCorrupt_error _ rest Hfound Hget).
    unfold andThen, say, inactiveHeader, corruptHeader.
    cbn [fst snd app]. rewrite <- ?app_assoc. reflexivity.
  - intros pid' partition Hget'.
    rewrite (checkMetaPartition_fetched _ _ Hget').
    unfold reportOf. cbn [fst].
    eexists. rewrite <- !append_assoc. reflexivity.
Qed.

(** C10.  The listing of the partitions that lack replicas stops in the
    same way: the first ID whose fetch fails ends the command after the
    error message, whatever IDs come after it.  A replica whose query
    fails gets a row with 0 over [ReplicaNum] and the words no data, and
    the rows of the replicas after it follow. *)
Theorem lack_replica_listing_stops_at_first_error :
  (forall client diagnosis metaNodes corrupt before ptrs pid rest err,
      DiagnoseMetaPartition client = Ok diagnosis ->
      sortedMetaNodes client (InactiveMetaNodes diagnosis)
      = Some metaNodes ->
      found client (sortIDs (CorruptMetaPartitionIDs diagnosis)) corrupt ->
      sortIDs (LackReplicaMetaPartitionIDs diagnosis)
      = (before ++ pid :: rest)%list ->
      answered client before ptrs ->
      GetMetaPartition client pid = Err err ->
      listLackReplicas client (before ++ pid :: rest)%list
      = ((lackBlocks client ptrs ++ [notFound err])%list, Returned)
      /\ defaultCheck client
         = ((inactiveHeader ++ map nodeRow metaNodes
               ++ corruptHeader ++ map partitionRow corrupt
               ++ lackHeader ++ lackBlocks client ptrs
               ++ [notFound err])%list, Returned))
  /\ (forall client partition before r after err,
        Replicas partition = (before ++ r :: after)%list ->
        MetaNodeGetPartition client (Go.first (Go.Split (Addr r) ":"))
          (PartitionID partition) = Err err ->
        listReplica client partition r
        = fmtPrintf (partitionInfoColorTablePattern "" "" "" (Addr r)
                       ("0/" ++ Go.showN (ReplicaNum partition))
                       "no data" ++ Go.nl)
        /\ lackBlock client partition
           = (partitionRow partition
                :: map (listReplica client partition) before
                ++ listReplica client partition r
                :: map (listReplica client partition) after
                ++ [lackSeparator])%list).
Proof.
  split.
  - intros client diagnosis metaNodes corrupt before ptrs pid rest err
      Hdiag Hnodes Hcorrupt Hsplit Hans Hget. split.
    + apply listLackReplicas_error; assumption.
    + unfold defaultCheck. rewrite Hdiag.
      unfold listDiagnosis, listInactiveNodes.
      rewrite Hnodes, (listCorrupt_found Hcorrupt), Hsplit,
        (listLackReplicas_error _ rest Hans Hget).
      unfold andThen, say, inactiveHeader, corruptHeader, lackHeader.
      cbn [fst snd app]. rewrite <- ?app_assoc. reflexivity.
  - intros client partition before r after err Hsplit Hquery. split.
    + unfold listReplica. rewrite Hquery. reflexivity.
    + unfold lackBlock. rewrite Hsplit, map_app. cbn [map].
      rewrite <- app_assoc. reflexivity.
Qed.

(** ** Further properties of the per-partition diagnosis *)

Lemma forallb_perm (A : Type) (f : A -> bool) (l l' : list A) :
  Permutation l l' -> forallb f l = forallb f l'.
Proof.
  induction 1 as [|x l l' _ IH|x y l|l l' l'' _ IH1 _ IH2]; cbn [forallb].
  - reflexivity.
  - rewrite IH. reflexivity.
  - rewrite !andb_assoc, (andb_comm (f y) (f x)). reflexivity.
  - congruence.
Qed.

Lemma forallb_pointwise (A : Type) (f g : A -> bool) (l : list A) :
  (forall x, f x = g x) -> forallb f l = forallb g l.
Proof.
  intros Hfg. induction l as [|x l IH]; cbn [forallb]; [reflexivity|].
  rewrite Hfg, IH. reflexivity.
Qed.

(** A healthy verdict can be trusted: for a record that was fetched it
    means that the master reports no missing host, a status other than
    -1 and [ReplicaNum] hosts, and that every replica answered with
    [ReplicaNum] peers that are a rearrangement of the hosts. *)
Theorem healthy_verdict_is_sound pid client partition :
  GetMetaPartition client pid = Ok (Some partition) ->
  verdictOf (checkMetaPartition pid client) = true ->
  MissNodes partition = []
  /\ Status partition <> (-1)%Z
  /\ N.of_nat (length (Hosts partition)) = ReplicaNum partition
  /\ forall r, In r (Replicas partition) ->
       exists mnPartition,
         MetaNodeGetPartition client (Go.first (Go.Split (Addr r) ":"))
           (PartitionID partition) = Ok mnPartition
         /\ Permutation (Hosts partition)
              (convertPeersToArray (Peers mnPartition))
         /\ N.of_nat (length (Peers mnPartition)) = ReplicaNum partition.
Proof.
  intros Hget Hverdict.
  rewrite (checkMetaPartition_fetched _ _ Hget) in Hverdict.
  unfold verdictOf in Hverdict. cbn [fst snd] in Hverdict.
  apply andb_true_iff in Hverdict. destruct Hverdict as [Hmaster Hall].
  apply negb_true_iff in Hmaster. unfold masterReportsUnhealthy in Hmaster.
  apply orb_false_iff in Hmaster. destruct Hmaster as [Hmaster Hlen].
  apply orb_false_iff in Hmaster. destruct Hmaster as [Hmiss Hstatus].
  split; [|split; [|split]].
  - destruct (MissNodes partition); [reflexivity|discriminate].
  - apply Z.eqb_neq, Hstatus.
  - apply negb_false_iff, N.eqb_eq in Hlen. unfold Go.Strings in Hlen.
    rewrite SliceStable_length in Hlen. exact Hlen.
  - intros r Hr. apply replicaAgrees_true.
    rewrite forallb_forall in Hall. apply Hall, Hr.
Qed.

(** The error returned by [checkMetaPartition] is the error of the fetch
    from the master and nothing else: the errors of the replica queries go
    to the report only.  A nil record without an error gives an empty
    report and the verdict healthy. *)
Theorem only_the_fetch_error_is_returned pid client :
  errOf (checkMetaPartition pid client)
  = match GetMetaPartition client pid with
    | Err err => Some err
    | Ok _ => None
    end
  /\ (GetMetaPartition client pid = Ok None ->
      checkMetaPartition pid client = ("", true, None)).
Proof.
  split.
  - destruct (GetMetaPartition client pid) as [[partition|]|err] eqn:Hget.
    + rewrite (checkMetaPartition_fetched _ _ Hget). reflexivity.
    + unfold checkMetaPartition. rewrite Hget. reflexivity.
    + rewrite (checkMetaPartition_fetch_failed _ _ Hget). reflexivity.
  - intros Hget. unfold checkMetaPartition. rewrite Hget. reflexivity.
Qed.

(** The verdict does not depend on the order in which the master lists the
    hosts and the replicas: two records that differ in these orders only,
    checked against the same meta nodes, get the same verdict. *)
Theorem verdict_ignores_listing_order pid pid' client client' p p' :
  GetMetaPartition client pid = Ok (Some p) ->
  GetMetaPartition client' pid' = Ok (Some p') ->
  (forall addr id,
     MetaNodeGetPartition client addr id
     = MetaNodeGetPartition client' addr id) ->
  PartitionID p = PartitionID p' ->
  ReplicaNum p = ReplicaNum p' ->
  Status p = Status p' ->
  MissNodes p = MissNodes p' ->
  Permutation (Hosts p) (Hosts p') ->
  Permutation (Replicas p) (Replicas p') ->
  verdictOf (checkMetaPartition pid client)
  = verdictOf (checkMetaPartition pid' client').
Proof.
  intros Hget Hget' Hnodes Hid Hnum Hstatus Hmiss Hhosts Hreplicas.
  rewrite (checkMetaPartition_fetched _ _ Hget),
    (checkMetaPartition_fetched _ _ Hget').
  unfold verdictOf. cbn [fst snd].
  rewrite <- (Strings_unique Hhosts).
  rewrite <- (forallb_perm _ Hreplicas).
  f_equal.
  - unfold masterReportsUnhealthy. rewrite Hmiss, Hstatus, Hnum.
    reflexivity.
  - apply forallb_pointwise. intros r. unfold replicaAgrees.
    rewrite Hnodes, Hid, Hnum. reflexivity.
Qed.

Lemma noColon_empty : noColon "".
Proof. intros []. Qed.

Lemma noColon_cons (c : ascii) (s : string) :
  Ascii.eqb c ":" = false -> noColon s -> noColon (String c s).
Proof.
  intros Hc Hs [Heq|Hin].
  - subst c. discriminate.
  - apply Hs, Hin.
Qed.

(** The meta node that is queried for a replica is the part of its
    address before the first colon: that part has no colon, the address
    is that part followed by nothing or by a colon and the rest.  An
    address without a colon is used whole. *)
Theorem queried_host_is_text_before_colon (addr : string) :
  let host := Go.first (Go.Split addr ":") in
  noColon host
  /\ (exists rest,
        addr = host ++ rest
        /\ (rest = "" \/ exists tail, rest = String ":" tail))
  /\ (noColon addr -> host = addr).
Proof.
  induction addr as [|c addr IH]; cbv zeta in *.
  - split; [apply noColon_empty|]. split; [|reflexivity].
    exists "". split; [reflexivity|left; reflexivity].
  - cbn [Go.Split]. destruct (Ascii.eqb c ":") eqn:Hc.
    + apply Ascii.eqb_eq in Hc. subst c. cbn [Go.first hd].
      split; [apply noColon_empty|]. split.
      * exists (String ":" addr). split; [reflexivity|].
        right. exists addr. reflexivity.
      * intros Hno. exfalso. apply Hno. left. reflexivity.
    + destruct IH as (Hno & (rest & Hsplit & Hrest) & Hwhole).
      destruct (Go.Split addr ":") as [|piece pieces];
        cbn [Go.first hd] in *.
      * split; [apply noColon_cons; assumption|]. split.
        -- exists rest. split; [|exact Hrest].
           cbn [append]. f_equal. exact Hsplit.
        -- intros Hall. f_equal. apply Hwhole.
           intros Hin. apply Hall. right. exact Hin.
      * split; [apply noColon_cons; assumption|]. split.
        -- exists rest. split; [|exact Hrest].
           cbn [append]. f_equal. exact Hsplit.
        -- intros Hall. f_equal. apply Hwhole.
           intros Hin. apply Hall. right. exact Hin.
Qed.


(** ** Further properties of the sweep *)

Lemma interleaves_in_order (A : Type) (tasks finished : list (list A)) :
  Forall (fun t => t = []) finished ->
  interleaves (finished ++ tasks)%list (concat tasks).
Proof.
  revert finished. induction tasks as [|t tasks IH]; intros finished Hfin.
  - rewrite app_nil_r. apply interleaves_done, Hfin.
  - induction t as [|x t IHt]; cbn [concat app].
    + replace (finished ++ [] :: tasks)%list
        with ((finished ++ [[]]) ++ tasks)%list
        by (rewrite <- app_assoc; reflexivity).
      apply IH. apply Forall_app. split; [exact Hfin|].
      constructor; [reflexivity|constructor].
    + apply interleaves_step. exact IHt.
Qed.

Lemma interleaves_perm (A : Type) (tasks : list (list A)) (out : list A) :
  interleaves tasks out -> Permutation out (concat tasks).
Proof.
  induction 1 as [tasks Hall|before x t after out _ IH].
  - induction Hall as [|t tasks Ht _ IHall]; cbn [concat].
    + apply perm_nil.
    + rewrite Ht. exact IHall.
  - rewrite concat_app in *. cbn [concat app] in *.
    apply perm_trans with (x :: concat before ++ t ++ concat after)%list.
    + apply perm_skip, IH.
    + apply Permutation_middle.
Qed.

Lemma last_cons (A : Type) (a d : A) (l : list A) :
  last (a :: l) d = last l a.
Proof.
  revert a d. induction l as [|b l IH]; intros a d; [reflexivity|].
  change (last (a :: b :: l) d) with (last (b :: l) d).
  rewrite (IH b d), (IH b a). reflexivity.
Qed.

Lemma sweepVolumes_chunks client volInfo :
  forall err out err',
    sweepVolumes client volInfo err out err' ->
    (exists chunks,
       out = concat chunks
       /\ Forall2 (fun vol chunk =>
                     Permutation chunk (volumeWrites client vol))
            volInfo chunks)
    /\ err' = last (map (volumeError client) volInfo) err.
Proof.
  induction volInfo as [|vol rest IH]; intros err out err' Hrun.
  - destruct Hrun as [-> ->]. split; [|reflexivity].
    exists []. split; [reflexivity|constructor].
  - cbn [sweepVolumes] in Hrun. cbn [map]. rewrite last_cons.
    assert (He : volumeError client vol
                 = match GetVolume client (Name vol)
                           (calcAuthKey (Owner vol)) with
                   | Err e => Some e
                   | Ok _ => None
                   end) by reflexivity.
    rewrite He. clear He.
    destruct (GetVolume client (Name vol) (calcAuthKey (Owner vol)))
      as [volView|e] eqn:Hget.
    + destruct Hrun as (o1 & o2 & -> & Hfan & Hrest).
      destruct (IH _ _ _ Hrest) as ((chunks & -> & Hchunks) & ->).
      split; [|reflexivity]. exists (o1 :: chunks).
      split; [reflexivity|]. constructor; [|exact Hchunks].
      unfold volumeWrites. rewrite Hget. apply interleaves_perm, Hfan.
    + destruct Hrun as (out' & -> & Hrest).
      destruct (IH _ _ _ Hrest) as ((chunks & -> & Hchunks) & ->).
      split; [|reflexivity].
      exists ([stdout ("Found an invalid vol: " ++ Name vol ++ Go.nl)]
                :: chunks).
      split; [reflexivity|]. constructor; [|exact Hchunks].
      unfold volumeWrites. rewrite Hget. apply Permutation_refl.
Qed.

Lemma interleaves_perm_tasks (A : Type) (tasks tasks' : list (list A))
    (out : list A) :
  Permutation tasks tasks' -> interleaves tasks out ->
  interleaves tasks' out.
Proof.
  intros Hperm Hrun. revert tasks' Hperm.
  induction Hrun as [tasks Hall|before x t after out _ IH];
    intros tasks' Hperm.
  - apply interleaves_done. apply (Permutation_Forall Hperm Hall).
  - assert (Hin : In (x :: t) tasks').
    { apply (Permutation_in _ Hperm), in_or_app. right. left. reflexivity. }
    apply in_split in Hin. destruct Hin as (before' & after' & ->).
    apply interleaves_step, IH.
    apply Permutation_elt. apply (Permutation_app_inv _ _ _ _ _ Hperm).
Qed.

Lemma sweepVolumes_any_order client volInfo orders :
  arrangements client volInfo orders ->
  forall err,
    sweepVolumes client volInfo err
      (flat_map (fun p => volumeWritesIn client (fst p) (snd p))
         (combine volInfo orders))
      (last (map (volumeError client) volInfo) err).
Proof.
  induction 1 as [|vol order volInfo orders Horder _ IH]; intros err.
  - split; reflexivity.
  - cbn [combine flat_map map sweepVolumes fst snd]. rewrite last_cons.
    assert (He : volumeError client vol
                 = match GetVolume client (Name vol)
                           (calcAuthKey (Owner vol)) with
                   | Err e => Some e
                   | Ok _ => None
                   end) by reflexivity.
    rewrite He. clear He.
    assert (Hw : volumeWritesIn client vol order
                 = match GetVolume client (Name vol)
                           (calcAuthKey (Owner vol)) with
                   | Err _ =>
                       [stdout ("Found an invalid vol: " ++ Name vol
                                  ++ Go.nl)]
                   | Ok _ => concat (map (checkTask client) order)
                   end) by reflexivity.
    rewrite Hw. clear Hw.
    destruct (GetVolume client (Name vol) (calcAuthKey (Owner vol)))
      as [volView|e].
    + eexists _, _. split; [reflexivity|]. split; [|apply IH].
      apply interleaves_perm_tasks
        with (tasks := map (checkTask client) order).
      * apply Permutation_map.
        apply perm_trans with (MetaPartitions volView).
        -- apply Horder. reflexivity.
        -- apply Permutation_sym. unfold sortViews. apply SliceStable_perm.
      * apply (@interleaves_in_order _ _ []). constructor.
    + eexists. split; [reflexivity|]. apply IH.
Qed.

(** The sweep has a run whenever the volumes can be listed, and the sort
    of the partitions by ID fixes no order on what is printed: for every
    arrangement of the partitions of each volume, the schedule in which
    their goroutines write one after the other in that arrangement is a
    run.  The volumes stay in the order of the list. *)
Theorem sweep_can_print_in_any_order client volInfo orders :
  ListVols client "" = Ok volInfo ->
  arrangements client volInfo orders ->
  checkAllMetaPartitions client
    (sweepHeader
       ++ flat_map (fun p => volumeWritesIn client (fst p) (snd p))
            (combine volInfo orders))%list
    (last (map (volumeError client) volInfo) None).
Proof.
  intros Hvols Horders. unfold checkAllMetaPartitions. rewrite Hvols.
  eexists. split; [reflexivity|]. apply sweepVolumes_any_order, Horders.
Qed.

(** In every run of the sweep the volumes are handled one after the other,
    in the order of the list: the output is the header followed by one
    chunk per volume, and the chunk of a volume holds what the goroutines
    of its partitions write, each exactly once, or the one line that
    names it as invalid.  An invalid volume does not stop the sweep. *)
Theorem sweep_writes_volume_by_volume client volInfo out err :
  ListVols client "" = Ok volInfo ->
  checkAllMetaPartitions client out err ->
  (exists chunks,
     out = (sweepHeader ++ concat chunks)%list
     /\ Forall2 (fun vol chunk =>
                   Permutation chunk (volumeWrites client vol))
          volInfo chunks)
  /\ Permutation out
       (sweepHeader ++ flat_map (volumeWrites client) volInfo)%list.
Proof.
  intros Hvols Hrun. unfold checkAllMetaPartitions in Hrun.
  rewrite Hvols in Hrun. destruct Hrun as (o & -> & Hsweep).
  destruct (sweepVolumes_chunks _ _ _ _ _ Hsweep)
    as ((chunks & -> & Hchunks) & _).
  split.
  - exists chunks. split; [reflexivity|exact Hchunks].
  - apply Permutation_app_head.
    clear Hsweep Hvols.
    induction Hchunks as [|vol chunk vols chunks Hperm _ IH];
      cbn [concat flat_map]; [apply perm_nil|].
    apply Permutation_app; assumption.
Qed.

(** The error that the sweep returns is the error of [GetVolume] for the
    last volume of the list, nil when that view was fetched or the list is
    empty: the errors of the volumes before it are overwritten.  [Run]
    prints that error, and only that one, once more after the sweep. *)
Theorem sweep_returns_the_error_of_the_last_volume client volInfo out exit :
  ListVols client "" = Ok volInfo ->
  Run client true out exit ->
  exists o,
    checkAllMetaPartitions client o
      (last (map (volumeError client) volInfo) None)
    /\ out = (o ++ match last (map (volumeError client) volInfo) None with
                   | Some e => [stdout (e ++ Go.nl)]
                   | None => []
                   end)%list
    /\ exit = Returned.
Proof.
  intros Hvols (o & err & Hrun & -> & ->).
  assert (Herr : err = last (map (volumeError client) volInfo) None).
  { unfold checkAllMetaPartitions in Hrun. rewrite Hvols in Hrun.
    destruct Hrun as (o' & _ & Hsweep).
    apply (sweepVolumes_chunks _ _ _ _ _ Hsweep). }
  subst err. exists o. split; [exact Hrun|]. split; reflexivity.
Qed.

(** When the list of the volumes cannot be fetched, the command with
    [--all] prints the error twice, once in the sweep and once in [Run],
    and nothing else. *)
Theorem failed_volume_listing_is_printed_twice client e out exit :
  ListVols client "" = Err e ->
  (Run client true out exit
   <-> out = [stdout (e ++ Go.nl); stdout (e ++ Go.nl)] /\ exit = Returned).
Proof.
  intros Hvols. unfold Run, checkAllMetaPartitions. rewrite Hvols. split.
  - intros (o & err & (-> & ->) & -> & ->). split; reflexivity.
  - intros (-> & ->). exists [stdout (e ++ Go.nl)], (Some e).
    repeat split; reflexivity.
Qed.

(** ** Further properties of the default listing *)

(** The listing of the partitions that lack replicas passes over an ID for
    which the master answers nil without an error: the output and the way
    the loop ends are those of the list without that ID. *)
Theorem lack_replica_listing_skips_nil_records client before pid rest :
  GetMetaPartition client pid = Ok None ->
  listLackReplicas client (before ++ pid :: rest)%list
  = listLackReplicas client (before ++ rest)%list.
Proof.
  intros Hnil. induction before as [|p before IH]; cbn [app listLackReplicas].
  - rewrite Hnil. reflexivity.
  - rewrite IH. reflexivity.
Qed.

(** ** The get command and the repair commands *)

Lemma showN_not_empty (n : N) : Go.showN n <> "".
Proof.
  unfold Go.showN. intros Hempty.
  pose proof (NilEmpty.usu (N.to_uint n)) as Hparse.
  rewrite Hempty in Hparse. cbn in Hparse. injection Hparse as Hnil.
  pose proof (DecimalN.Unsigned.of_to n) as Hn.
  rewrite <- Hnil in Hn. cbn in Hn. subst n. discriminate Hnil.
Qed.

Lemma ParseUint_showN (n : N) :
  ParseUint (Go.showN n)
  = if (n <=? maxUint64)%N then Ok n
    else Err (strconvError (Go.showN n)).
Proof.
  unfold ParseUint.
  destruct (Go.showN n) as [|c s] eqn:Hshow;
    [exfalso; apply (showN_not_empty n Hshow)|].
  rewrite <- Hshow. unfold Go.showN.
  rewrite NilEmpty.usu, DecimalN.Unsigned.of_to. reflexivity.
Qed.

Lemma ParseUint_ok (s : string) (n : N) :
  ParseUint s = Ok n -> (n <= maxUint64)%N /\ s <> "".
Proof.
  unfold ParseUint. destruct s as [|c s]; [discriminate|].
  destruct (NilEmpty.uint_of_string (String c s)) as [d|]; [|discriminate].
  destruct (N.of_uint d <=? maxUint64)%N eqn:Hle; [|discriminate].
  intros H. injection H as <-. split; [apply N.leb_le, Hle|discriminate].
Qed.

Lemma ParseUint_err (s : string) (err : error) :
  ParseUint s = Err err -> err = strconvError s.
Proof.
  unfold ParseUint. destruct s as [|c s]; [congruence|].
  destruct (NilEmpty.uint_of_string (String c s)) as [d|]; [|congruence].
  destruct (N.of_uint d <=? maxUint64)%N; congruence.
Qed.

(** The get command, given the decimal text of an ID as its first
    argument: for an ID that fits 64 bits it hands to the formatter what
    the master returns, and writes nothing when the fetch fails; for a
    larger ID, for an empty text and in general whenever nothing is shown,
    no message is written either.  Whatever is shown was returned by the
    master for an ID that fits 64 bits.  Without an argument the command
    is rejected. *)
Theorem get_command_shows_or_stays_silent client :
  (forall pid more,
     (pid <= maxUint64)%N ->
     metaPartitionGetCmd client (Go.showN pid :: more)
     = Some match GetMetaPartition client pid with
            | Ok partition => Shown partition
            | Err _ => Silent
            end)
  /\ (forall pid more,
        (maxUint64 < pid)%N ->
        metaPartitionGetCmd client (Go.showN pid :: more) = Some Silent)
  /\ (forall more, metaPartitionGetCmd client ("" :: more) = Some Silent)
  /\ metaPartitionGetCmd client [] = None
  /\ (forall args partition,
        metaPartitionGetCmd client args = Some (Shown partition) ->
        exists pid,
          (pid <= maxUint64)%N
          /\ ParseUint (arg 0 args) = Ok pid
          /\ GetMetaPartition client pid = Ok partition).
Proof.
  unfold metaPartitionGetCmd, MinimumNArgs, getRun, arg.
  split; [|split; [|split; [|split]]].
  - intros pid more Hle. cbn [length Nat.ltb Nat.leb nth].
    rewrite ParseUint_showN. apply N.leb_le in Hle. rewrite Hle.
    destruct (GetMetaPartition client pid); reflexivity.
  - intros pid more Hlt. cbn [length Nat.ltb Nat.leb nth].
    rewrite ParseUint_showN. apply N.leb_gt in Hlt. rewrite Hlt.
    reflexivity.
  - intros more. reflexivity.
  - reflexivity.
  - intros args partition.
    destruct (length args <? 1)%nat; [discriminate|].
    destruct (ParseUint (nth 0 args "")) as [pid|err] eqn:Hparse;
      [|discriminate].
    destruct (GetMetaPartition client pid) as [ptr|err] eqn:Hget;
      [|discriminate].
    intros H. injection H as <-. exists pid.
    split; [apply (ParseUint_ok _ Hparse)|]. split; reflexivity || exact Hget.
Qed.

(** A repair command, given an address and the decimal text of an ID that
    fits 64 bits, sends exactly one request, its own, with that ID and
    that address.  It writes nothing when the master accepts and the
    error of the master when it refuses.  Further arguments are
    ignored. *)
Theorem repair_commands_send_one_request api address pid more :
  (pid <= maxUint64)%N ->
  let report := fun answer : option error =>
    match answer with
    | Some err => [stdout (err ++ Go.nl)]
    | None => []
    end in
  metaPartitionDecommissionCmd api (address :: Go.showN pid :: more)
  = Some ([ReqDecommission pid address],
          report (DecommissionMetaPartition api pid address))
  /\ metaPartitionReplicateCmd api (address :: Go.showN pid :: more)
     = Some ([ReqAddReplica pid address],
             report (AddMetaReplica api pid address))
  /\ metaPartitionDeleteReplicaCmd api (address :: Go.showN pid :: more)
     = Some ([ReqDeleteReplica pid address],
             report (DeleteMetaReplica api pid address)).
Proof.
  intros Hle report. apply N.leb_le in Hle.
  unfold metaPartitionDecommissionCmd, metaPartitionReplicateCmd,
    metaPartitionDeleteReplicaCmd, MinimumNArgs, repairRun, arg.
  cbn [length Nat.ltb Nat.leb nth]. rewrite ParseUint_showN, Hle.
  repeat split.
  - destruct (DecommissionMetaPartition api pid address); reflexivity.
  - destruct (AddMetaReplica api pid address); reflexivity.
  - destruct (DeleteMetaReplica api pid address); reflexivity.
Qed.

Lemma repairRun_requests call request args reqs out :
  MinimumNArgs 2 (repairRun call request) args = Some (reqs, out) ->
  (2 <= length args)%nat
  /\ ((reqs = []
       /\ out = [stdout (strconvError (arg 1 args) ++ Go.nl)]
       /\ exists err, ParseUint (arg 1 args) = Err err)
      \/ exists pid,
           ParseUint (arg 1 args) = Ok pid
           /\ (pid <= maxUint64)%N
           /\ reqs = [request pid (arg 0 args)]).
Proof.
  unfold MinimumNArgs, repairRun.
  destruct (length args <? 2)%nat eqn:Hlen; [discriminate|].
  apply Nat.ltb_ge in Hlen. intros H. injection H as H. split; [exact Hlen|].
  destruct (ParseUint (arg 1 args)) as [pid|err] eqn:Hparse.
  - right. exists pid. split; [reflexivity|].
    split; [apply (ParseUint_ok _ Hparse)|].
    destruct (call pid (arg 0 args)); injection H as <- _; reflexivity.
  - left. injection H as <- <-. rewrite (ParseUint_err _ Hparse).
    split; [reflexivity|]. split; [reflexivity|].
    eexists. reflexivity.
Qed.

(** No repair command sends a request that was not asked for: with fewer
    than two arguments it is rejected; when the second argument is not the
    decimal text of an ID that fits 64 bits (empty, a sign, a letter, too
    large) it sends nothing and writes the error of the parse; otherwise
    it sends one request, for the parsed ID and the first argument. *)
Theorem repair_commands_never_send_a_bad_id api args :
  let checked := fun (cmd : list string -> option (list Request * Output))
                     (request : N -> string -> Request) =>
    match cmd args with
    | None => (length args < 2)%nat
    | Some (reqs, out) =>
        (2 <= length args)%nat
        /\ ((reqs = []
             /\ out = [stdout (strconvError (arg 1 args) ++ Go.nl)]
             /\ exists err, ParseUint (arg 1 args) = Err err)
            \/ exists pid,
                 ParseUint (arg 1 args) = Ok pid
                 /\ (pid <= maxUint64)%N
                 /\ reqs = [request pid (arg 0 args)])
    end in
  checked (metaPartitionDecommissionCmd api) ReqDecommission
  /\ checked (metaPartitionReplicateCmd api) ReqAddReplica
  /\ checked (metaPartitionDeleteReplicaCmd api) ReqDeleteReplica.
Proof.
  cbv zeta.
  assert (Hone : forall call request,
    match MinimumNArgs 2 (repairRun call request) args with
    | None => (length args < 2)%nat
    | Some (reqs, out) =>
        (2 <= length args)%nat
        /\ ((reqs = []
             /\ out = [stdout (strconvError (arg 1 args) ++ Go.nl)]
             /\ exists err, ParseUint (arg 1 args) = Err err)
            \/ exists pid,
                 ParseUint (arg 1 args) = Ok pid
                 /\ (pid <= maxUint64)%N
                 /\ reqs = [request pid (arg 0 args)])
    end).
  { intros call request.
    destruct (MinimumNArgs 2 (repairRun call request) args)
      as [[reqs out]|] eqn:Hcmd.
    - apply (repairRun_requests _ _ _ Hcmd).
    - unfold MinimumNArgs in Hcmd.
      destruct (length args <? 2)%nat eqn:Hlen; [|discriminate].
      apply Nat.ltb_lt, Hlen. }
  split; [|split]; apply Hone.
Qed.

End Command.

(** ** The command on the sample cluster *)

(** C5.  The master does not find partition 99.  The message is written
    to the string builder, but the report returned is empty: the function
    returns before the builder is copied to [outPut].  The verdict is the
    initial [true] and the error is passed on. *)
Theorem fetch_failure_returns_empty_report :
  let client := Sample.cluster [] [] in
  GetMetaPartition client 99 = Err "meta partition not exists"
  /\ checkMetaPartition Sample.infoRow Sample.colorRow 99 client
     = ("", true, Some "meta partition not exists")
  /\ reportOf (checkMetaPartition Sample.infoRow Sample.colorRow 99 client)
     <> "Partition is not found, err:[meta partition not exists]".
Proof.
  cbv zeta. split; [reflexivity|]. split; [reflexivity|].
  vm_compute. discriminate.
Qed.

Lemma healthy_when_master_and_replicas_agree_witness :
  verdictOf (checkMetaPartition Sample.infoRow Sample.colorRow 10
               (Sample.cluster [] [])) = true.
Proof.
  apply (healthy_when_master_and_replicas_agree Sample.infoRow
           Sample.colorRow 10 (Sample.cluster [] [])
           (partition := Sample.record 10)).
  - reflexivity.
  - reflexivity.
  - discriminate.
  - reflexivity.
  - intros r Hr. exists {| Peers := Sample.peers |}.
    split; [destruct Hr as [<-|[<-|[<-|[]]]]; reflexivity|].
    split; [|split; [|reflexivity]].
    + repeat constructor; simpl; intuition discriminate.
    + intros x. simpl. tauto.
Defined.

Lemma unhealthy_when_master_report_is_off_witness :
  verdictOf (checkMetaPartition Sample.infoRow Sample.colorRow 40
               (Sample.cluster [] [])) = false.
Proof.
  apply (unhealthy_when_master_report_is_off Sample.infoRow Sample.colorRow
           40 (Sample.cluster [] []) (partition := Sample.degraded)).
  - reflexivity.
  - right. left. reflexivity.
Defined.

Lemma peer_comparison_ignores_order_witness :
  isEqualStrings (Go.Strings ["h2:17210"; "h1:17210"; "h3:17210"])
    (Go.Strings ["h3:17210"; "h2:17210"; "h1:17210"]) = true
  /\ verdictOf (checkMetaPartition Sample.infoRow Sample.colorRow 10
                  (Sample.cluster [] [])) = true
  /\ verdictOf (checkMetaPartition Sample.infoRow Sample.colorRow 10
                  Sample.forgetful) = false.
Proof.
  destruct (peer_comparison_ignores_order Sample.infoRow Sample.colorRow
              10 (Sample.cluster [] []) (partition := Sample.record 10)
              {| Addr := "h1:17210"; IsLeader := true |}
              (mnPartition := {| Peers := Sample.peers |})
              eq_refl (or_introl eq_refl) eq_refl)
    as (Hsame & _ & _ & Hverdict).
  assert (Hperm : Permutation (Hosts (Sample.record 10))
                    (convertPeersToArray Sample.peers))
    by (apply isEqualStrings_perm; reflexivity).
  split; [apply (proj1 (Hsame Hperm))|]. split.
  - apply (Hverdict eq_refl); [discriminate|reflexivity|].
    intros r' Hr'. exists {| Peers := Sample.peers |}.
    split; [|exact Hperm].
    destruct Hr' as [<-|[<-|[<-|[]]]]; reflexivity.
  - refine (proj2 (proj1 (proj2 (peer_comparison_ignores_order
                            Sample.infoRow Sample.colorRow 10
                            Sample.forgetful
                            (partition := Sample.record 10)
                            {| Addr := "h2:17210"; IsLeader := false |}
                            (mnPartition :=
                               {| Peers :=
                                    [ {| PeerID := 1;
                                         PeerAddr := "h1:17210" |};
                                      {| PeerID := 2;
                                         PeerAddr := "h2:17210" |} ] |})
                            eq_refl (or_intror (or_introl eq_refl))
                            eq_refl)) _)).
    intros Hsame'.
    destruct (proj1 (Hsame' "h3:17210")) as [H|[H|[]]];
      [simpl; tauto|discriminate H|discriminate H].
Defined.

(** C4 on the sample cluster: with the meta node h3 down, the row of its
    replica reads nil/3, and 0/3 occurs nowhere in the report. *)
Lemma failed_replica_row_shows_nil :
  let result := checkMetaPartition Sample.infoRow Sample.colorRow 10
                  (Sample.cluster ["h3"] []) in
  reportOf result
  = "10 vol1" ++ Go.nl
    ++ " |  |  | h1:17210(peers) | 3/3 | h1:17210; h2:17210; h3:17210" ++ Go.nl
    ++ " |  |  | h2:17210(peers) | 3/3 | h1:17210; h2:17210; h3:17210" ++ Go.nl
    ++ " |  |  | h3:17210 | nil/3 | get partition info failed, err:connection refused"
    ++ Go.nl
  /\ String.index 0 "0/3" (reportOf result) = None
  /\ verdictOf result = false.
Proof. cbv zeta. repeat split; vm_compute; reflexivity. Qed.

Lemma failed_replica_query_is_reported_witness :
  let result := checkMetaPartition Sample.infoRow Sample.colorRow 10
                  (Sample.cluster ["h3"] []) in
  verdictOf result = false /\ errOf result = None.
Proof.
  destruct (failed_replica_query_is_reported Sample.infoRow Sample.colorRow
              10 (Sample.cluster ["h3"] []) (partition := Sample.record 10)
              [ {| Addr := "h1:17210"; IsLeader := true |};
                {| Addr := "h2:17210"; IsLeader := false |} ]
              {| Addr := "h3:17210"; IsLeader := false |} []
              (err := "connection refused")
              eq_refl eq_refl eq_refl) as (Hverdict & _ & Herr).
  split; [exact Hverdict|exact Herr].
Defined.

Lemma fetch_failure_is_skipped_by_sweep_witness :
  let client := Sample.cluster [] [20]%N in
  verdictOf (checkMetaPartition Sample.infoRow Sample.colorRow 20 client)
  = true
  /\ checkTask Sample.infoRow Sample.tableHeader Sample.colorRow client
       {| ViewPartitionID := 20 |} = [].
Proof.
  destruct (fetch_failure_is_skipped_by_sweep Sample.infoRow
              Sample.tableHeader Sample.colorRow (Sample.cluster [] [20]%N)
              20 (err := "meta partition not exists") eq_refl)
    as (Hverdict & Hquiet).
  split; [exact Hverdict|]. apply Hquiet. reflexivity.
Defined.

Lemma sweep_prints_unhealthy_only_witness :
  let client := Sample.cluster ["h3"] [10; 20]%N in
  let result := checkMetaPartition Sample.infoRow Sample.colorRow 30 client in
  let out := [stdout Go.nl;
              stdout ("[Partition peer info not valid]:" ++ Go.nl);
              stdout (Sample.tableHeader ++ Go.nl);
              fmtPrintfFormat (reportOf result);
              stdoutGreen (sweepSeparator Sample.tableHeader)] in
  checkAllMetaPartitions Sample.infoRow Sample.tableHeader Sample.authKey
    Sample.colorRow client out None
  /\ writtenBefore (fmtPrintfFormat (reportOf result))
       (stdoutGreen (sweepSeparator Sample.tableHeader)) out
  /\ checkTask Sample.infoRow Sample.tableHeader Sample.colorRow client
       {| ViewPartitionID := 10 |} = [].
Proof.
  cbv zeta.
  assert (Hrun :
    checkAllMetaPartitions Sample.infoRow Sample.tableHeader Sample.authKey
      Sample.colorRow (Sample.cluster ["h3"] [10; 20]%N)
      [stdout Go.nl;
       stdout ("[Partition peer info not valid]:" ++ Go.nl);
       stdout (Sample.tableHeader ++ Go.nl);
       fmtPrintfFormat
         (reportOf (checkMetaPartition Sample.infoRow Sample.colorRow 30
                      (Sample.cluster ["h3"] [10; 20]%N)));
       stdoutGreen (sweepSeparator Sample.tableHeader)] None).
  { eexists. split; [reflexivity|].
    eexists _, []. split; [rewrite app_nil_r; reflexivity|].
    split; [|split; reflexivity].
    apply (interleaves_step [[]; []] _ _ []).
    apply (interleaves_step [[]; []] _ _ []).
    apply interleaves_done. repeat constructor. }
  split; [exact Hrun|].
  destruct (sweep_prints_unhealthy_only Sample.infoRow Sample.tableHeader
              Sample.authKey Sample.colorRow
              (Sample.cluster ["h3"] [10; 20]%N)
              (volInfo := [ {| Name := "vol1"; Owner := "root" |} ])
              _ None eq_refl Hrun) as (Heach & _).
  assert (Hd30 : diagnosed Sample.authKey (Sample.cluster ["h3"] [10; 20]%N)
                   [ {| Name := "vol1"; Owner := "root" |} ]
                   {| ViewPartitionID := 30 |}).
  { exists {| Name := "vol1"; Owner := "root" |},
      {| MetaPartitions := Sample.views |}.
    split; [left; reflexivity|]. split; [reflexivity|left; reflexivity]. }
  split.
  - apply (Heach _ Hd30). reflexivity.
  - reflexivity.
Defined.

(** C7 on the sample cluster: the inactive nodes n1 and n2 have the IDs 2
    and 1.  The row of n2 is printed before the row of n1, although n1
    comes first in the order of the addresses. *)
Lemma inactive_node_rows_follow_node_ids :
  let client := Sample.cluster [] [] in
  option_map (map NodeAddr)
    (sortedMetaNodes client (InactiveMetaNodes Sample.diagnosis))
  = Some ["n2:17210"; "n1:17210"]
  /\ firstn 2 (skipn 2 (fst (defaultCheck Sample.infoRow Sample.nodeDetail
                               Sample.nodeHeader Sample.tableHeader
                               Sample.colorRow client)))
     = [stdout ("1 n2:17210" ++ Go.nl); stdout ("2 n1:17210" ++ Go.nl)]
  /\ Go.Strings ["n2:17210"; "n1:17210"] = ["n1:17210"; "n2:17210"].
Proof. cbv zeta. repeat split; vm_compute; reflexivity. Qed.

(** The whole listing on the sample cluster, and the node rows on a
    master where both addresses answer with the same node ID: they come
    in ascending order of the addresses. *)
Lemma diagnosis_lists_rendered_in_order_witness :
  let client := Sample.cluster [] [] in
  Sorted N.le (sortIDs (CorruptMetaPartitionIDs Sample.diagnosis))
  /\ fst (defaultCheck Sample.infoRow Sample.nodeDetail Sample.nodeHeader
            Sample.tableHeader Sample.colorRow client)
     = (inactiveHeader Sample.nodeHeader
          ++ [nodeRow Sample.nodeDetail (Sample.node 1 "n2:17210");
              nodeRow Sample.nodeDetail (Sample.node 2 "n1:17210")]
          ++ corruptHeader Sample.tableHeader
          ++ map (partitionRow Sample.infoRow)
               [Sample.record 10; Sample.record 20; Sample.record 30]
          ++ lackHeader Sample.tableHeader
          ++ lackBlocks Sample.infoRow Sample.tableHeader Sample.colorRow
               client
               [Some (Sample.record 10); Some Sample.degraded;
                Some (Sample.record 45)])%list
  /\ firstn 2 (skipn 2 (fst (defaultCheck Sample.infoRow Sample.nodeDetail
                               Sample.nodeHeader Sample.tableHeader
                               Sample.colorRow Sample.renumbered)))
     = [nodeRow Sample.nodeDetail (Sample.node 5 "n1:17210");
        nodeRow Sample.nodeDetail (Sample.node 5 "n2:17210")].
Proof.
  destruct (diagnosis_lists_rendered_in_order Sample.infoRow
              Sample.nodeDetail Sample.nodeHeader Sample.tableHeader
              Sample.colorRow (Sample.cluster [] [])
              (diagnosis := Sample.diagnosis) eq_refl)
    as ((Hsorted & _) & _ & _ & _ & _ & Hparts & _).
  destruct (diagnosis_lists_rendered_in_order Sample.infoRow
              Sample.nodeDetail Sample.nodeHeader Sample.tableHeader
              Sample.colorRow Sample.renumbered
              (diagnosis := Sample.diagnosis) eq_refl)
    as (_ & _ & _ & _ & _ & Hparts' & _).
  split; [exact Hsorted|]. cbv zeta. rewrite Hparts, Hparts'.
  split; reflexivity.
Defined.

Lemma corrupt_listing_stops_at_first_error_witness :
  let client := Sample.cluster [] [20]%N in
  defaultCheck Sample.infoRow Sample.nodeDetail Sample.nodeHeader
    Sample.tableHeader Sample.colorRow client
  = ((inactiveHeader Sample.nodeHeader
        ++ [nodeRow Sample.nodeDetail (Sample.node 1 "n2:17210");
            nodeRow Sample.nodeDetail (Sample.node 2 "n1:17210")]
        ++ corruptHeader Sample.tableHeader
        ++ [partitionRow Sample.infoRow (Sample.record 10)]
        ++ [notFound "meta partition not exists"])%list, Returned).
Proof.
  refine (proj1 (proj2 (corrupt_listing_stops_at_first_error Sample.infoRow
                   Sample.nodeDetail Sample.nodeHeader Sample.tableHeader
                   Sample.colorRow (client := Sample.cluster [] [20]%N)
                   (diagnosis := Sample.diagnosis)
                   (metaNodes := [Sample.node 1 "n2:17210";
                                  Sample.node 2 "n1:17210"])
                   (before := [10%N]) (records := [Sample.record 10])
                   20 [30%N] (err := "meta partition not exists")
                   _ _ _ _ _))).
  - reflexivity.
  - reflexivity.
  - reflexivity.
  - repeat constructor.
  - reflexivity.
Defined.

Lemma lack_replica_listing_stops_at_first_error_witness :
  let client := Sample.cluster ["h3"] [40]%N in
  snd (listLackReplicas Sample.infoRow Sample.tableHeader Sample.colorRow
         client [10; 40; 45]%N) = Returned
  /\ fst (listLackReplicas Sample.infoRow Sample.tableHeader Sample.colorRow
            client [10; 40; 45]%N)
     = (lackBlock Sample.infoRow Sample.tableHeader Sample.colorRow client
          (Sample.record 10)
          ++ [notFound "meta partition not exists"])%list
  /\ listReplica Sample.colorRow client (Sample.record 10)
       {| Addr := "h3:17210"; IsLeader := false |}
     = fmtPrintf (" |  |  | h3:17210 | 0/3 | no data" ++ Go.nl).
Proof.
  cbv zeta.
  destruct (lack_replica_listing_stops_at_first_error Sample.infoRow
              Sample.nodeDetail Sample.nodeHeader Sample.tableHeader
              Sample.colorRow) as (Hstop & Hrow).
  destruct (Hstop (Sample.cluster ["h3"] [40]%N) Sample.diagnosis
              [Sample.node 1 "n2:17210"; Sample.node 2 "n1:17210"]
              [Sample.record 10; Sample.record 20; Sample.record 30]
              [10%N] [Some (Sample.record 10)] 40%N [45%N]
              "meta partition not exists")
    as (Hloop & _).
  - reflexivity.
  - reflexivity.
  - repeat constructor.
  - reflexivity.
  - repeat constructor.
  - reflexivity.
  - destruct (Hrow (Sample.cluster ["h3"] [40]%N) (Sample.record 10)
                [ {| Addr := "h1:17210"; IsLeader := true |};
                  {| Addr := "h2:17210"; IsLeader := false |} ]
                {| Addr := "h3:17210"; IsLeader := false |} []
                "connection refused" eq_refl eq_refl) as (Hplaceholder & _).
    change ([10; 40; 45]%N) with ([10] ++ 40 :: [45])%list%N.
    rewrite Hloop. cbn [fst snd]. split; [reflexivity|].
    split; [|exact Hplaceholder].
    unfold lackBlocks. cbn [flat_map]. rewrite app_nil_r. reflexivity.
Defined.

(** ** The further properties on the sample cluster *)

Lemma sample_sweep_run :
  checkAllMetaPartitions Sample.infoRow Sample.tableHeader Sample.authKey
    Sample.colorRow (Sample.cluster ["h3"] [10; 20]%N)
    (sweepHeader Sample.tableHeader
       ++ [fmtPrintfFormat
             (reportOf (checkMetaPartition Sample.infoRow Sample.colorRow 30
                          (Sample.cluster ["h3"] [10; 20]%N)));
           stdoutGreen (sweepSeparator Sample.tableHeader)])%list
    None.
Proof.
  eexists. split; [reflexivity|].
  eexists _, []. split; [rewrite app_nil_r; reflexivity|].
  split; [|split; reflexivity].
  apply (interleaves_step [[]; []] _ _ []).
  apply (interleaves_step [[]; []] _ _ []).
  apply interleaves_done. repeat constructor.
Defined.

Lemma healthy_verdict_is_sound_witness :
  MissNodes (Sample.record 10) = []
  /\ Status (Sample.record 10) <> (-1)%Z
  /\ N.of_nat (length (Hosts (Sample.record 10)))
     = ReplicaNum (Sample.record 10).
Proof.
  destruct (healthy_verdict_is_sound Sample.infoRow Sample.colorRow 10
              (Sample.cluster [] []) (partition := Sample.record 10)
              eq_refl eq_refl) as (Hmiss & Hstatus & Hlen & _).
  split; [exact Hmiss|]. split; [exact Hstatus|exact Hlen].
Defined.

Lemma verdict_ignores_listing_order_witness :
  verdictOf (checkMetaPartition Sample.infoRow Sample.colorRow 10
               (Sample.cluster ["h3"] []))
  = verdictOf (checkMetaPartition Sample.infoRow Sample.colorRow 10
                 (Sample.answering (fun _ => Ok (Some Sample.reordered))
                    (Sample.cluster ["h3"] []))).
Proof.
  apply (verdict_ignores_listing_order Sample.infoRow Sample.colorRow
           10 10 (Sample.cluster ["h3"] [])
           (Sample.answering (fun _ => Ok (Some Sample.reordered))
              (Sample.cluster ["h3"] []))
           (p := Sample.record 10) (p' := Sample.reordered)).
  - reflexivity.
  - reflexivity.
  - reflexivity.
  - reflexivity.
  - reflexivity.
  - reflexivity.
  - reflexivity.
  - apply isEqualStrings_perm. reflexivity.
  - apply perm_swap.
Defined.

Lemma sweep_can_print_in_any_order_witness :
  let client := Sample.cluster ["h3"] [] in
  let report := fun pid =>
    fmtPrintfFormat
      (reportOf (checkMetaPartition Sample.infoRow Sample.colorRow pid
                   client)) in
  let line := stdoutGreen (sweepSeparator Sample.tableHeader) in
  checkAllMetaPartitions Sample.infoRow Sample.tableHeader Sample.authKey
    Sample.colorRow client
    (sweepHeader Sample.tableHeader
       ++ [report 10%N; line; report 20%N; line; report 30%N; line])%list
    None
  /\ checkAllMetaPartitions Sample.infoRow Sample.tableHeader
       Sample.authKey Sample.colorRow client
       (sweepHeader Sample.tableHeader
          ++ [report 30%N; line; report 10%N; line; report 20%N; line])%list
       None.
Proof.
  cbv zeta. split.
  - apply (sweep_can_print_in_any_order Sample.infoRow Sample.tableHeader
             (calcAuthKey := Sample.authKey) Sample.colorRow
             (client := Sample.cluster ["h3"] [])
             (volInfo := [ {| Name := "vol1"; Owner := "root" |} ])
             (orders := [ [ {| ViewPartitionID := 10 |};
                            {| ViewPartitionID := 20 |};
                            {| ViewPartitionID := 30 |} ] ])
             eq_refl).
    constructor; [|constructor]. intros volView Hview.
    injection Hview as <-.
    apply Permutation_sym.
    exact (Permutation_cons_append
             [ {| ViewPartitionID := 10 |}; {| ViewPartitionID := 20 |} ]
             {| ViewPartitionID := 30 |}).
  - apply (sweep_can_print_in_any_order Sample.infoRow Sample.tableHeader
             (calcAuthKey := Sample.authKey) Sample.colorRow
             (client := Sample.cluster ["h3"] [])
             (volInfo := [ {| Name := "vol1"; Owner := "root" |} ])
             (orders := [ Sample.views ]) eq_refl).
    constructor; [|constructor]. intros volView Hview.
    injection Hview as <-. apply Permutation_refl.
Defined.

Lemma sweep_writes_volume_by_volume_witness :
  let client := Sample.cluster ["h3"] [10; 20]%N in
  Permutation
    (sweepHeader Sample.tableHeader
       ++ [fmtPrintfFormat
             (reportOf (checkMetaPartition Sample.infoRow Sample.colorRow 30
                          client));
           stdoutGreen (sweepSeparator Sample.tableHeader)])%list
    (sweepHeader Sample.tableHeader
       ++ flat_map (volumeWrites Sample.infoRow Sample.tableHeader
                      Sample.authKey Sample.colorRow client)
            [ {| Name := "vol1"; Owner := "root" |} ])%list.
Proof.
  cbv zeta.
  apply (proj2 (sweep_writes_volume_by_volume Sample.infoRow
                  Sample.tableHeader Sample.authKey Sample.colorRow
                  (Sample.cluster ["h3"] [10; 20]%N)
                  (volInfo := [ {| Name := "vol1"; Owner := "root" |} ])
                  _ None eq_refl sample_sweep_run)).
Defined.

Lemma sweep_returns_the_error_of_the_last_volume_witness :
  exists o,
    checkAllMetaPartitions Sample.infoRow Sample.tableHeader Sample.authKey
      Sample.colorRow (Sample.cluster ["h3"] [10; 20]%N) o None.
Proof.
  assert (Hrun :
    Run Sample.infoRow Sample.nodeDetail Sample.nodeHeader
      Sample.tableHeader Sample.authKey Sample.colorRow
      (Sample.cluster ["h3"] [10; 20]%N) true
      (sweepHeader Sample.tableHeader
         ++ [fmtPrintfFormat
               (reportOf (checkMetaPartition Sample.infoRow Sample.colorRow
                            30 (Sample.cluster ["h3"] [10; 20]%N)));
             stdoutGreen (sweepSeparator Sample.tableHeader)])%list
      Returned).
  { eexists _, None. split; [exact sample_sweep_run|].
    split; [rewrite app_nil_r; reflexivity|reflexivity]. }
  destruct (sweep_returns_the_error_of_the_last_volume
              (client := Sample.cluster ["h3"] [10; 20]%N)
              (volInfo := [ {| Name := "vol1"; Owner := "root" |} ])
              eq_refl Hrun) as (o & Ho & _).
  exists o. exact Ho.
Defined.

Lemma failed_volume_listing_is_printed_twice_witness :
  Run Sample.infoRow Sample.nodeDetail Sample.nodeHeader Sample.tableHeader
    Sample.authKey Sample.colorRow
    (Sample.unlisted (Sample.cluster [] [])) true
    [stdout ("no leader" ++ Go.nl); stdout ("no leader" ++ Go.nl)] Returned.
Proof.
  apply (proj2 (failed_volume_listing_is_printed_twice Sample.infoRow
                  Sample.nodeDetail Sample.nodeHeader Sample.tableHeader
                  Sample.authKey Sample.colorRow
                  (Sample.unlisted (Sample.cluster [] []))
                  (e := "no leader") _ _ eq_refl)).
  split; reflexivity.
Defined.

Lemma lack_replica_listing_skips_nil_records_witness :
  let client :=
    Sample.answering
      (fun pid => if (pid =? 40)%N then Ok None
                  else Ok (Some (Sample.record pid)))
      (Sample.cluster [] []) in
  listLackReplicas Sample.infoRow Sample.tableHeader Sample.colorRow client
    [10; 40; 45]%N
  = listLackReplicas Sample.infoRow Sample.tableHeader Sample.colorRow client
      [10; 45]%N.
Proof.
  apply (lack_replica_listing_skips_nil_records Sample.infoRow
           Sample.tableHeader Sample.colorRow
           (Sample.answering
              (fun pid => if (pid =? 40)%N then Ok None
                          else Ok (Some (Sample.record pid)))
              (Sample.cluster [] []))
           [10%N] 40%N [45%N] eq_refl).
Defined.

Lemma get_command_shows_or_stays_silent_witness :
  metaPartitionGetCmd Sample.numError (Sample.cluster [] []) ["10"]
  = Some (Shown (Some (Sample.record 10)))
  /\ metaPartitionGetCmd Sample.numError (Sample.cluster [] [])
       ["18446744073709551616"] = Some Silent.
Proof.
  destruct (get_command_shows_or_stays_silent Sample.numError
              (Sample.cluster [] [])) as (Hshow & Hbig & _).
  split.
  - apply (Hshow 10%N []). discriminate.
  - apply (Hbig 18446744073709551616%N []). reflexivity.
Defined.

Lemma repair_commands_send_one_request_witness :
  metaPartitionDecommissionCmd Sample.numError Sample.repair
    ["h3:17210"; "10"]
  = Some ([ReqDecommission 10 "h3:17210"], [])
  /\ metaPartitionReplicateCmd Sample.numError Sample.repair
       ["h9:17210"; "10"; "more"]
     = Some ([ReqAddReplica 10 "h9:17210"],
             [stdout ("meta node not exists" ++ Go.nl)]).
Proof.
  split.
  - refine (proj1 (repair_commands_send_one_request Sample.numError
                     Sample.repair "h3:17210" (pid := 10%N) [] _)).
    discriminate.
  - refine (proj1 (proj2 (repair_commands_send_one_request Sample.numError
                     Sample.repair "h9:17210" (pid := 10%N) ["more"] _))).
    discriminate.
Defined.
